(** * Smart Investment Advisor: the projection engine of [app.py]

    A shallow embedding of the rule-based helpers of [app.py] (risk
    inference, allocation table, time-value-of-money projections, the
    advisor-note fallback) and of the part of the main tab that calls them.

    Numbers.  Python's numbers are modelled by exact arithmetic:
    - integers read from the form (age, horizon, amounts) are [Z] or [nat];
    - the floats of the classifier and of the allocation table, which only
      go through [+], [/] and comparisons, are rationals [Q], so that these
      definitions evaluate;
    - the floats of the projection engine, which go through a fractional
      power, are real numbers [R].
    Rounding, overflow, infinities and NaN of IEEE doubles are therefore
    outside the model: an equation proved here holds of the floats up to
    rounding error.

    Strings are byte strings (UTF-8), dictionaries are [gmap string _]. *)

From Stdlib Require Import ZArith QArith Qminmax Qround Reals Lra Lia.
From Stdlib Require Import String Ascii List DecimalString.
From stdpp Require Import base option list gmap strings.
Import ListNotations.

(** ** Risk classifier *)

Module RiskClassifier.

(** [g in goals] on a Python list of strings. *)
Definition str_in (g : string) (goals : list string) : bool :=
  existsb (String.eqb g) goals.

(** Line 183: [0 if income <= 0 else monthly_invest / max(income, 1)]. *)
Definition savings_rate (monthly_invest income : Q) : Q :=
  if Qle_bool income 0 then 0%Q else (monthly_invest / Qmax income 1)%Q.

(** [infer_risk]: the score is threaded through the four [if]s in the
    order of the source. *)
Definition infer_risk (age horizon : Z) (goals : list string)
    (monthly_invest income : Q) : string * Z :=
  let savings_rate := savings_rate monthly_invest income in
  let long_horizon := (15 <=? horizon)%Z in
  let many_growth_goals :=
    existsb (fun g => str_in g goals) ["Wealth Creation"; "Retirement"]%string in
  let score := 0%Z in
  let score :=
    if (age <? 35)%Z then (score + 2)%Z
    else if (age <=? 50)%Z then (score + 1)%Z
    else score in
  let score := if long_horizon then (score + 2)%Z else score in
  let score := if Qle_bool 0.3 savings_rate then (score + 1)%Z else score in
  let score := if many_growth_goals then (score + 1)%Z else score in
  if (score <=? 2)%Z then ("Low"%string, score)
  else if (score <=? 4)%Z then ("Medium"%string, score)
  else ("High"%string, score).

End RiskClassifier.

(** ** Allocation advisor *)

Module AllocationAdvisor.

(** A value found in an externally sourced dictionary, seen through
    [float(...)]: [Num q] is any object that [float] converts, to [q];
    [NonNum] is any object on which [float] raises. *)
Inductive pyval : Type :=
| Num (q : Q)
| NonNum.

Definition float (v : pyval) : option Q :=
  match v with
  | Num q => Some q
  | NonNum => None
  end.

Definition suggest_allocation_from_risk (risk_level : string) : gmap string Q :=
  if String.eqb risk_level "Low" then
    <["Cash"%string := 0.05%Q]> (<["Gold"%string := 0.10%Q]>
      (<["Debt"%string := 0.65%Q]> (<["Equity"%string := 0.20%Q]> ∅)))
  else if String.eqb risk_level "High" then
    <["Cash"%string := 0.05%Q]> (<["Gold"%string := 0.05%Q]>
      (<["Debt"%string := 0.15%Q]> (<["Equity"%string := 0.75%Q]> ∅)))
  else
    <["Cash"%string := 0.05%Q]> (<["Gold"%string := 0.10%Q]>
      (<["Debt"%string := 0.30%Q]> (<["Equity"%string := 0.55%Q]> ∅))).

(** The dictionary literal indexed by [risk_level]; [None] is the
    [KeyError] of a label outside the table. *)
Definition expected_return_from_risk (risk_level : string) : option Q :=
  (<["High"%string := 0.14%Q]> (<["Medium"%string := 0.11%Q]>
    (<["Low"%string := 0.07%Q]> (∅ : gmap string Q)))) !! risk_level.

Definition keys : list string := ["Equity"; "Debt"; "Gold"; "Cash"]%string.

(** One turn of the loop over [keys]: the [try] converts the raw entry,
    or the default's entry when the key is missing; the [except] takes
    the default's entry, [0.0] when the default has none.  The default
    mix holds numbers, so the second [float] cannot raise. *)
Definition coerce (raw_alloc : gmap string pyval) (default_alloc : gmap string Q)
    (k : string) : Q :=
  let d := default 0%Q (default_alloc !! k) in
  match float (default (Num d) (raw_alloc !! k)) with
  | Some q => q
  | None => d
  end.

(** [sum(out.values())]. *)
Definition sum_values (out : gmap string Q) : Q :=
  map_fold (fun _ v acc => (acc + v)%Q) 0%Q out.

Definition normalize_allocation (raw_alloc : gmap string pyval)
    (default_alloc : gmap string Q) : gmap string Q :=
  let out :=
    fold_left (fun out k => <[k := coerce raw_alloc default_alloc k]> out)
              keys (∅ : gmap string Q) in
  let s := sum_values out in
  if Qle_bool s 0 then default_alloc
  else (fun v => (v / s)%Q) <$> out.

End AllocationAdvisor.

(** ** Projection engine *)

Module ProjectionEngine.

(** Period and year counts are natural numbers: the form bounds the
    horizon to 1..60. *)
Definition fv_lump_sum (P r : R) (n : nat) : R :=
  (P * ((1 + r) ^ n))%R.

Definition fv_annuity (PMT r : R) (n : nat) : R :=
  if Req_dec_T r 0 then (PMT * INR n)%R
  else (PMT * (((1 + r) ^ n - 1) / r))%R.

(** [(1 + annual_rate) ** (1 / 12) - 1].  The real power [Rpower] is the
    float power for a positive base; a rate of -1 or below (base zero or
    negative, where Python leaves the reals) is outside the model. *)
Definition annual_to_monthly_rate (annual_rate : R) : R :=
  (Rpower (1 + annual_rate) (1 / 12) - 1)%R.

(** [None] is the [ZeroDivisionError] of a zero denominator. *)
Definition discount_to_present (future_value inflation_rate : R) (years : nat)
    : option R :=
  let d := ((1 + inflation_rate) ^ years)%R in
  if Req_dec_T d 0 then None else Some (future_value / d)%R.

Definition project_corpus (current_savings monthly_invest annual_return : R)
    (years : nat) : R :=
  let m := (years * 12)%nat in
  let rm := annual_to_monthly_rate annual_return in
  let fv_current := fv_lump_sum current_savings rm m in
  let fv_stream := fv_annuity monthly_invest rm m in
  (fv_current + fv_stream)%R.

Definition project_fd_corpus (principal annual_rate : R) (years : nat) : R :=
  (principal * ((1 + annual_rate) ^ years))%R.

(** The comprehension over [zip(values, years_list)]; the first element
    that raises aborts the whole list. *)
Definition inflation_adjust_series (values : list R) (inflation_rate : R)
    (years_list : list nat) : option (list R) :=
  mapM (fun p : R * nat => discount_to_present p.1 inflation_rate p.2)
       (zip values years_list).

(** Lines 382-389 of the main tab.  The state of the loops is the running
    balance [bal] and the list [balances_nominal]. *)
Definition month_step (rm monthly_invest bal : R) : R :=
  (bal * (1 + rm) + monthly_invest)%R.

Definition year_step (rm monthly_invest : R) (st : R * list R) (year : nat)
    : R * list R :=
  let bal := Nat.iter 12 (month_step rm monthly_invest) st.1 in
  (bal, st.2 ++ [bal]).

Definition yearly_balances (current_savings monthly_invest exp_ret : R)
    (horizon : nat) : list R :=
  let years := seq 1 horizon in
  let rm := annual_to_monthly_rate exp_ret in
  (fold_left (year_step rm monthly_invest) years (current_savings, [])).2.

End ProjectionEngine.

(** ** Advisory narrator (the remote call) *)

Module Narrator.

(** What the body of an answer holds at
    [data["choices"][0]["message"]["content"]]: nothing (the body is not
    JSON or lacks that path, so that the lookup raises, inside the
    [try]), the JSON [null], or a text.  The chat-completions format
    gives a content no other type, and none is modelled. *)
Inductive reply_body : Type :=
| Malformed
| Null
| Text (content : string).

(** What one [requests.post] does: it raises (network error, timeout), or
    it answers with a status code and a body. *)
Inductive response : Type :=
| Raised
| Replied (status_code : Z) (body : reply_body).

(** The [for attempt in range(max_retries)] loop, from attempt number
    [attempt] with [remaining] turns left.  [post] is the service: its
    answer to the request at each attempt.  On a 200 answer whose body
    gives a content, [return content] ends the loop, with the text or
    with [None] when the content is [null].  The [time.sleep] between
    attempts changes no value and is left out. *)
Fixpoint attempts (post : nat -> response) (attempt remaining : nat)
    : option string :=
  match remaining with
  | O => None
  | S remaining' =>
      match post attempt with
      | Replied status_code body =>
          if (status_code =? 200)%Z then
            match body with
            | Text content => Some content
            | Null => None
            | Malformed => attempts post (S attempt) remaining'
            end
          else attempts post (S attempt) remaining'
      | Raised => attempts post (S attempt) remaining'
      end
  end.

(** [api_key] is what [get_openrouter_key()] returns; [None] and the
    empty string are both falsy. *)
Definition call_llm_with_backoff (api_key : option string)
    (post : nat -> response) (max_retries : nat) : option string :=
  match api_key with
  | None => None
  | Some EmptyString => None
  | Some _ => attempts post 0 max_retries
  end.

End Narrator.

(** ** String formatting *)

Module Format.

(** [str(n)] and [f"{n}"] of an integer. *)
Definition str_int (n : Z) : string :=
  NilZero.string_of_int (Z.to_int n).

(** Thousands separators, on the digits from the least significant one;
    [k] digits were emitted since the last comma. *)
Fixpoint group3 (rev_digits : list ascii) (k : nat) : list ascii :=
  match rev_digits with
  | [] => []
  | c :: cs =>
      if (k =? 3)%nat then ","%char :: c :: group3 cs 1
      else c :: group3 cs (S k)
  end.

(** [f"{n:,.0f}"] of an integer [n] (exact below 2^53). *)
Definition fmt_comma0 (n : Z) : string :=
  let digits := list_ascii_of_string (str_int (Z.abs n)) in
  let grouped := string_of_list_ascii (rev (group3 (rev digits) 0)) in
  if (n <? 0)%Z then String "-"%char grouped else grouped.

Definition round_half_even (q : Q) : Z :=
  let f := Qfloor q in
  match Qcompare (q - inject_Z f) (1 # 2) with
  | Lt => f
  | Gt => (f + 1)%Z
  | Eq => if Z.even f then f else (f + 1)%Z
  end.

(** [f"{q:.1f}"] of a non-negative number. *)
Definition fmt_1f (q : Q) : string :=
  let t := round_half_even (q * 10) in
  str_int (t / 10) +:+ "." +:+ str_int (t mod 10).

Definition lower_ascii (c : ascii) : ascii :=
  let n := nat_of_ascii c in
  if ((65 <=? n) && (n <=? 90))%nat then ascii_of_nat (n + 32) else c.

(** [s.lower()] on ASCII letters. *)
Definition lower (s : string) : string :=
  string_of_list_ascii (map lower_ascii (list_ascii_of_string s)).

(** [needle in hay] on strings. *)
Fixpoint contains (needle hay : string) : bool :=
  String.prefix needle hay ||
  match hay with
  | EmptyString => false
  | String _ hay' => contains needle hay'
  end.

End Format.

(** ** The main tab *)

Module MainTab.
Import RiskClassifier AllocationAdvisor ProjectionEngine Narrator Format.

(** Lines 369-374: the advisor note written when the narrator gave
    nothing. *)
Definition fallback_advice (age monthly_invest current_savings : Z)
    (horizon : nat) (inferred_risk : string) (exp_ret : Q) : string :=
  "Based on your age (" +:+ str_int age +:+
  "), monthly investment of roughly ₹" +:+ fmt_comma0 monthly_invest +:+
  ", current savings of about ₹" +:+ fmt_comma0 current_savings +:+
  ", and a " +:+ str_int (Z.of_nat horizon) +:+
  "-year horizon, this preview assumes a " +:+ lower inferred_risk +:+
  " risk profile with an expected CAGR of around " +:+
  fmt_1f (exp_ret * 100) +:+
  "% per year. Use this purely as research, not as a guarantee.".

(** What a run leaves behind: the note on the page and the dictionary
    saved as [latest_context]. *)
Record context : Type := {
  advice : string;
  ctx_years : list nat;
  ctx_balances_nominal : list R;
  ctx_balances_real : list R;
  ctx_fd_future : R;
  ctx_fd_real : R;
  ctx_port_future : R;
  ctx_port_real : R;
  ctx_exp_ret : Q;
  ctx_risk_level : string;
  ctx_alloc : gmap string Q
}.

Inductive result : Type :=
| NotRun
| Raises
| Completed (ctx : context).

(** The error monad of the run: an exception aborts it. *)
Definition bind {A} (x : option A) (k : A -> result) : result :=
  match x with
  | Some a => k a
  | None => Raises
  end.

Notation "x <- e ;; k" := (bind e (fun x => k))
  (at level 60, e at next level, right associativity).

(** Lines 332-390 and 549-562.  The form gives integers for [age],
    [horizon] and the three amounts, floats for the two rates. *)
Definition tab_main (api_key : option string) (post : nat -> response)
    (age : Z) (horizon : nat) (income monthly_invest current_savings : Z)
    (inflation_rate fd_rate : R) (selected_goals : list string)
    (submitted : bool) : result :=
  match submitted, selected_goals with
  | true, _ :: _ =>
      let '(rule_risk, risk_score) :=
        infer_risk age (Z.of_nat horizon) selected_goals
                   (inject_Z monthly_invest) (inject_Z income) in
      let base_alloc := suggest_allocation_from_risk rule_risk in
      base_exp_ret <- expected_return_from_risk rule_risk ;;
      let llm_advice := call_llm_with_backoff api_key post 2 in
      let inferred_risk := rule_risk in
      let exp_ret := base_exp_ret in
      let alloc := base_alloc in
      let advice :=
        match llm_advice with
        | None | Some EmptyString =>
            fallback_advice age monthly_invest current_savings horizon
                            inferred_risk exp_ret
        | Some text => text
        end in
      let corpus_port :=
        project_corpus (IZR current_savings) (IZR monthly_invest)
                       (Q2R exp_ret) horizon in
      let corpus_fd :=
        project_fd_corpus
          (IZR (current_savings + monthly_invest * 12 * Z.of_nat horizon))
          fd_rate horizon in
      real_corpus_port <- discount_to_present corpus_port inflation_rate horizon ;;
      let years := seq 1 horizon in
      let balances_nominal :=
        yearly_balances (IZR current_savings) (IZR monthly_invest)
                        (Q2R exp_ret) horizon in
      balances_real <- inflation_adjust_series balances_nominal inflation_rate years ;;
      fd_real <- discount_to_present corpus_fd inflation_rate horizon ;;
      Completed {|
        advice := advice;
        ctx_years := years;
        ctx_balances_nominal := balances_nominal;
        ctx_balances_real := balances_real;
        ctx_fd_future := corpus_fd;
        ctx_fd_real := fd_real;
        ctx_port_future := corpus_port;
        ctx_port_real := real_corpus_port;
        ctx_exp_ret := exp_ret;
        ctx_risk_level := inferred_risk;
        ctx_alloc := alloc
      |}
  | _, _ => NotRun
  end.

End MainTab.

(** ** The specification's side

  Definitions that follow the words of the specification, to be compared
  with the code's. *)

Module Spec.
Import AllocationAdvisor Narrator.

Definition age_points (age : Z) : Z :=
  if decide (age < 35)%Z then 2%Z
  else if decide (35 <= age <= 50)%Z then 1%Z
  else 0%Z.

Definition horizon_points (horizon : Z) : Z :=
  if decide (15 <= horizon)%Z then 2%Z else 0%Z.

Definition savings_points (rate : Q) : Z :=
  if Qlt_le_dec rate 0.3 then 0%Z else 1%Z.

Definition goal_points (goals : list string) : Z :=
  if decide ("Wealth Creation"%string ∈ goals ∨ "Retirement"%string ∈ goals)
  then 1%Z else 0%Z.

(** The additive score, for a given savings rate. *)
Definition score (rate : Q) (age horizon : Z) (goals : list string) : Z :=
  (age_points age + horizon_points horizon + savings_points rate
   + goal_points goals)%Z.

Definition tier (score : Z) : string :=
  if decide (score <= 2)%Z then "Low"%string
  else if decide (3 <= score <= 4)%Z then "Medium"%string
  else "High"%string.

(** The savings rate as the specification writes it: the divisor floored
    at 1, whatever the income. *)
Definition savings_rate (monthly_invest income : Q) : Q :=
  (monthly_invest / Qmax income 1)%Q.

(** An allocation mix over the fixed universe of asset classes. *)
Definition mix (equity debt gold cash : Q) : gmap string Q :=
  list_to_map [("Equity"%string, equity); ("Debt"%string, debt);
               ("Gold"%string, gold); ("Cash"%string, cash)].

(** The invariant of an allocation mix: no negative weight, and the
    weights sum to 1. *)
Definition nonneg_weights (m : gmap string Q) : Prop :=
  forall k v, m !! k = Some v -> (0 <= v)%Q.

Definition valid_mix (m : gmap string Q) : Prop :=
  nonneg_weights m /\ (sum_values m == 1)%Q.


(** The total of the four coerced entries of a raw mapping. *)
Definition coerced_total (raw_alloc : gmap string pyval)
    (default_alloc : gmap string Q) : Q :=
  (coerce raw_alloc default_alloc "Equity" + coerce raw_alloc default_alloc "Debt"
   + coerce raw_alloc default_alloc "Gold" + coerce raw_alloc default_alloc "Cash")%Q.

(** An attempt fails when the request raises, answers with a status
    other than 200, or answers 200 with a malformed body. *)
Definition failed (r : response) : Prop :=
  match r with
  | Raised => True
  | Replied status_code body => status_code <> 200%Z \/ body = Malformed
  end.

(** The narrator is absent: no credential, or both attempts fail. *)
Definition narrator_absent (api_key : option string) (post : nat -> response)
    : Prop :=
  api_key = None \/ forall attempt, (attempt < 2)%nat -> failed (post attempt).

End Spec.

Import RiskClassifier AllocationAdvisor ProjectionEngine Narrator Format MainTab.

(** ** The landing code: query parameter, credential, timed retries *)

Module Landing.
Import RiskClassifier Narrator Format.

(** A value of the query-parameter dictionary: a string (the current
    Streamlit interface) or a list of strings (the older one). *)
Inductive qvalue : Type :=
| QStr (s : string)
| QList (l : list string).

(** [get_query_param], for a string default.  [params] is [None] when
    the object Streamlit gives is not a [dict]. *)
Definition get_query_param (params : option (gmap string qvalue))
    (name : string) (default : string) : string :=
  match params with
  | Some params =>
      match params !! name with
      | Some (QList val) =>
          match val with
          | v :: _ => v
          | [] => default
          end
      | Some (QStr val) => val
      | None => default
      end
  | None => default
  end.

Definition is_upper (c : ascii) : bool :=
  let n := nat_of_ascii c in ((65 <=? n) && (n <=? 90))%nat.

Definition is_lower (c : ascii) : bool :=
  let n := nat_of_ascii c in ((97 <=? n) && (n <=? 122))%nat.

Definition upper_ascii (c : ascii) : ascii :=
  if is_lower c then ascii_of_nat (nat_of_ascii c - 32) else c.

(** [s.title()] on ASCII letters: a letter that follows a letter is
    lower-cased, any other letter is upper-cased. *)
Fixpoint title_from (previous_is_cased : bool) (s : string) : string :=
  match s with
  | EmptyString => EmptyString
  | String c s' =>
      String (if previous_is_cased then lower_ascii c else upper_ascii c)
             (title_from (is_upper c || is_lower c) s')
  end.

Definition title (s : string) : string := title_from false s.

Definition RISK_OPTIONS : list string := ["Low"; "Medium"; "High"]%string.

(** Lines 127-131: the risk seed read from the URL. *)
Definition risk_hint (params : option (gmap string qvalue)) : string :=
  let risk_hint := get_query_param params "risk" "Medium" in
  let risk_hint :=
    match risk_hint with
    | EmptyString => "Medium"%string
    | _ => risk_hint
    end in
  let risk_hint := title risk_hint in
  if str_in risk_hint RISK_OPTIONS then risk_hint else "Medium"%string.

(** [get_openrouter_key]: [env_key] is [os.getenv(...)], [secret] is
    [st.secrets[...]], [None] when that lookup raises. *)
Definition get_openrouter_key (env_key secret : option string) : option string :=
  match env_key with
  | Some (String c k) => Some (String c k)
  | _ => secret
  end.

(** The pause after a failed attempt: [(2 ** attempt) + 0.1 * attempt]
    seconds. *)
Definition backoff_delay (attempt : nat) : Q :=
  (inject_Z (2 ^ Z.of_nat attempt) + 0.1 * inject_Z (Z.of_nat attempt))%Q.

(** The retry loop with its pauses: the result of [attempts] and the
    arguments of the successive [time.sleep] calls. *)
Fixpoint attempts_timed (post : nat -> response) (attempt remaining : nat)
    : option string * list Q :=
  match remaining with
  | O => (None, [])
  | S remaining' =>
      let retry :=
        let '(result, sleeps) := attempts_timed post (S attempt) remaining' in
        (result, backoff_delay attempt :: sleeps) in
      match post attempt with
      | Replied status_code body =>
          if (status_code =? 200)%Z then
            match body with
            | Text content => (Some content, [])
            | Null => (None, [])
            | Malformed => retry
            end
          else retry
      | Raised => retry
      end
  end.

Definition call_llm_with_backoff_timed (api_key : option string)
    (post : nat -> response) (max_retries : nat) : option string * list Q :=
  match api_key with
  | None => (None, [])
  | Some EmptyString => (None, [])
  | Some _ => attempts_timed post 0 max_retries
  end.

End Landing.

(** ** Reference definitions for the further properties *)

Module Reference.
Import ProjectionEngine MainTab.

(** The sum of [f 0], ..., [f (n - 1)]. *)
Fixpoint sum_upto (f : nat -> R) (n : nat) : R :=
  match n with
  | O => 0%R
  | S k => (sum_upto f k + f k)%R
  end.

(** A run with its advisor note blanked. *)
Definition forget_advice (r : result) : result :=
  match r with
  | Completed ctx =>
      Completed {|
        advice := EmptyString;
        ctx_years := ctx_years ctx;
        ctx_balances_nominal := ctx_balances_nominal ctx;
        ctx_balances_real := ctx_balances_real ctx;
        ctx_fd_future := ctx_fd_future ctx;
        ctx_fd_real := ctx_fd_real ctx;
        ctx_port_future := ctx_port_future ctx;
        ctx_port_real := ctx_port_real ctx;
        ctx_exp_ret := ctx_exp_ret ctx;
        ctx_risk_level := ctx_risk_level ctx;
        ctx_alloc := ctx_alloc ctx
      |}
  | _ => r
  end.

(** [s] with its thousands separators removed. *)
Fixpoint strip_commas (s : string) : string :=
  match s with
  | EmptyString => EmptyString
  | String c s' =>
      if Ascii.eqb c ","%char then strip_commas s' else String c (strip_commas s')
  end.

Definition not_comma (c : ascii) : bool := negb (Ascii.eqb c ","%char).

End Reference.

Import Landing Reference.

(** * Properties *)

(** ** Risk classifier *)

Section risk_classifier.

Lemma str_in_elem_of (g : string) (goals : list string) :
  str_in g goals = true <-> g ∈ goals.
Proof.
  unfold str_in. rewrite existsb_exists. split.
  - intros (x & Hin & Heq). apply String.eqb_eq in Heq. subst x.
    now apply list_elem_of_In.
  - intros Hin. exists g. split; [now apply list_elem_of_In|].
    apply String.eqb_refl.
Qed.

Lemma goal_points_correct (goals : list string) :
  Spec.goal_points goals =
  if existsb (fun g => str_in g goals) ["Wealth Creation"; "Retirement"]%string
  then 1%Z else 0%Z.
Proof.
  unfold Spec.goal_points. cbn [existsb]. rewrite orb_false_r.
  destruct (str_in "Wealth Creation" goals) eqn:Hw;
    destruct (str_in "Retirement" goals) eqn:Hr; cbn [orb];
    case_decide as Hd; try reflexivity; exfalso.
  1-3: apply Hd; rewrite <- !str_in_elem_of; auto.
  destruct Hd as [Hd | Hd]; apply str_in_elem_of in Hd; congruence.
Qed.

Lemma savings_points_correct (rate : Q) :
  Spec.savings_points rate = if Qle_bool 0.3 rate then 1%Z else 0%Z.
Proof.
  unfold Spec.savings_points.
  destruct (Qlt_le_dec rate 0.3) as [Hlt | Hle].
  - destruct (Qle_bool 0.3 rate) eqn:Hb; [|reflexivity].
    apply Qle_bool_iff in Hb. exfalso. apply (Qlt_not_le _ _ Hlt Hb).
  - apply Qle_bool_iff in Hle. now rewrite Hle.
Qed.

Lemma infer_risk_score (age horizon : Z) (goals : list string) (mi inc : Q) :
  (infer_risk age horizon goals mi inc).2 =
  Spec.score (savings_rate mi inc) age horizon goals.
Proof.
  unfold infer_risk, Spec.score.
  rewrite goal_points_correct, savings_points_correct.
  unfold Spec.age_points, Spec.horizon_points.
  repeat case_decide;
    repeat match goal with
           | |- context [(?a <? ?b)%Z] => destruct (Z.ltb_spec a b); try lia
           | |- context [(?a <=? ?b)%Z] => destruct (Z.leb_spec a b); try lia
           | |- context [Qle_bool ?a ?b] => destruct (Qle_bool a b)
           | |- context [existsb ?f ?l] => destruct (existsb f l)
           end; reflexivity.
Qed.

Lemma infer_risk_tier (age horizon : Z) (goals : list string) (mi inc : Q) :
  (infer_risk age horizon goals mi inc).1 =
  Spec.tier (infer_risk age horizon goals mi inc).2.
Proof.
  unfold infer_risk.
  repeat match goal with
         | |- context [if ?b then _ else _] => destruct b eqn:?
         end; cbn [fst snd]; unfold Spec.tier; repeat case_decide;
    try reflexivity; lia.
Qed.

Lemma savings_rate_income_le_0 (mi inc : Q) :
  (inc <= 0)%Q -> savings_rate mi inc = 0%Q.
Proof.
  intros Hle. unfold savings_rate.
  apply Qle_bool_iff in Hle. now rewrite Hle.
Qed.

Lemma savings_rate_income_gt_0 (mi inc : Q) :
  (0 < inc)%Q -> savings_rate mi inc = (mi / Qmax inc 1)%Q.
Proof.
  intros Hlt. unfold savings_rate.
  destruct (Qle_bool inc 0) eqn:Hb; [|reflexivity].
  apply Qle_bool_iff in Hb. exfalso. apply (Qlt_not_le _ _ Hlt Hb).
Qed.

(** C2, as stated, fails: for an income of 0 the rule of the
    specification takes the savings rate to be
    monthlyInvestment / max(0, 1), so an investor aged 30 with a horizon
    of 20 years, no growth goal and 1000 invested per month would score
    2 + 2 + 1 = 5 and be High; the code takes the rate to be 0, scores 4
    and answers Medium. *)
Lemma infer_risk_zero_income_counterexample :
  infer_risk 30 20 ["Education"%string] 1000 0 = ("Medium"%string, 4%Z)
  /\ (0.3 <= Spec.savings_rate 1000 0)%Q
  /\ Spec.score (Spec.savings_rate 1000 0) 30 20 ["Education"%string] = 5%Z
  /\ Spec.tier 5 = "High"%string
  /\ infer_risk 30 20 ["Education"%string] 1000 0
     <> (Spec.tier (Spec.score (Spec.savings_rate 1000 0) 30 20
                               ["Education"%string]),
         Spec.score (Spec.savings_rate 1000 0) 30 20 ["Education"%string]).
Proof.
  split; [reflexivity|]. split; [discriminate|].
  split; [reflexivity|]. split; [reflexivity|]. discriminate.
Qed.

(** C2, amended.  For a positive monthly income, [infer_risk] returns the
    additive score of the specification (age below 35: 2, age 35 to 50:
    1, above 50: 0; horizon of 15 years or more: 2; savings rate
    monthlyInvestment / max(monthlyIncome, 1) of 0.3 or more: 1; a growth
    goal selected: 1) with the tier Low up to 2, Medium for 3 and 4, High
    from 5; for an income of zero or less the score and tier are those
    of a savings rate of 0.  The boundary profile of the specification,
    whose savings rate is 0.3, scores 6 and is High. *)
Theorem infer_risk_additive_score (age horizon : Z) (goals : list string)
    (monthly_invest income : Q) :
  ((0 < income)%Q ->
     let score :=
       Spec.score (Spec.savings_rate monthly_invest income) age horizon goals in
     infer_risk age horizon goals monthly_invest income
     = (Spec.tier score, score))
  /\ ((income <= 0)%Q ->
        let score := Spec.score 0 age horizon goals in
        infer_risk age horizon goals monthly_invest income
        = (Spec.tier score, score))
  /\ infer_risk 30 20 ["Wealth Creation"%string] 30000 100000 = ("High"%string, 6%Z)
  /\ (Spec.savings_rate 30000 100000 == 0.3)%Q.
Proof.
  assert (Hpair : infer_risk age horizon goals monthly_invest income
                  = (Spec.tier (Spec.score (savings_rate monthly_invest income)
                                           age horizon goals),
                     Spec.score (savings_rate monthly_invest income)
                                age horizon goals)).
  { rewrite (surjective_pairing (infer_risk _ _ _ _ _)).
    rewrite infer_risk_tier, infer_risk_score. reflexivity. }
  split; [|split; [|split; reflexivity]].
  - intros Hpos. cbv zeta. rewrite Hpair.
    now rewrite (savings_rate_income_gt_0 _ _ Hpos).
  - intros Hle. cbv zeta. rewrite Hpair.
    now rewrite (savings_rate_income_le_0 _ _ Hle).
Qed.

Lemma infer_risk_additive_score_witness :
  ((0 < 100000)%Q
   /\ infer_risk 30 20 ["Wealth Creation"%string] 30000 100000
      = (Spec.tier (Spec.score (Spec.savings_rate 30000 100000) 30 20
                               ["Wealth Creation"%string]),
         Spec.score (Spec.savings_rate 30000 100000) 30 20
                    ["Wealth Creation"%string]))
  /\ ((0 <= 0)%Q
      /\ infer_risk 30 20 ["Education"%string] 1000 0
         = (Spec.tier (Spec.score 0 30 20 ["Education"%string]),
            Spec.score 0 30 20 ["Education"%string])).
Proof.
  split.
  - split; [reflexivity|].
    apply (proj1 (infer_risk_additive_score 30 20 ["Wealth Creation"%string]
                    30000 100000)).
    reflexivity.
  - split; [discriminate|].
    apply (proj1 (proj2 (infer_risk_additive_score 30 20 ["Education"%string]
                    1000 0))).
    discriminate.
Defined.

End risk_classifier.

Section zero_income.

(** C3, as stated, fails: with an income of 0 and a monthly investment of
    0.3 the code's savings rate is 0, not 0.3 / max(0, 1) = 0.3, and the
    savings-rate rule adds nothing: the score is 0 where the
    specification's formula gives 1. *)
Lemma savings_rate_zero_income_counterexample :
  (0 <= 0)%Q
  /\ ~ (savings_rate 0.3 0 == Spec.savings_rate 0.3 0)%Q
  /\ (0.3 <= Spec.savings_rate 0.3 0)%Q
  /\ (infer_risk 60 5 ["Other"%string] 0.3 0).2 = 0%Z
  /\ Spec.score (Spec.savings_rate 0.3 0) 60 5 ["Other"%string] = 1%Z.
Proof.
  repeat split; try reflexivity; vm_compute; congruence.
Qed.

(** C3, amended.  For an income of zero or less the savings rate is taken
    to be 0, so the savings-rate rule adds nothing to the score whatever
    the monthly investment; the divisor max(income, 1) is only used for a
    positive income. *)
Theorem savings_rate_guard (monthly_invest income : Q) :
  ((income <= 0)%Q ->
     savings_rate monthly_invest income = 0%Q
     /\ Spec.savings_points (savings_rate monthly_invest income) = 0%Z
     /\ forall age horizon goals,
          (infer_risk age horizon goals monthly_invest income).2 =
          (Spec.age_points age + Spec.horizon_points horizon
           + Spec.goal_points goals)%Z)
  /\ ((0 < income)%Q ->
        savings_rate monthly_invest income =
        Spec.savings_rate monthly_invest income).
Proof.
  split.
  - intros Hle. pose proof (savings_rate_income_le_0 monthly_invest income Hle) as H0.
    split; [exact H0|]. split; [now rewrite H0|].
    intros age horizon goals. rewrite infer_risk_score. unfold Spec.score.
    rewrite H0. change (Spec.savings_points 0) with 0%Z. lia.
  - apply savings_rate_income_gt_0.
Qed.

Lemma savings_rate_guard_witness :
  ((0 <= 0)%Q /\ savings_rate 0.3 0 = 0%Q)
  /\ ((0 < 100000)%Q
      /\ savings_rate 30000 100000 = Spec.savings_rate 30000 100000).
Proof.
  split.
  - split; [discriminate|].
    apply (proj1 (savings_rate_guard 0.3 0)). discriminate.
  - split; [reflexivity|].
    apply (proj2 (savings_rate_guard 30000 100000)). reflexivity.
Defined.

End zero_income.

(** ** Allocation advisor *)

Section allocation.

Lemma sum_values_insert (k : string) (v : Q) (m : gmap string Q) :
  m !! k = None -> (sum_values (<[k := v]> m) == sum_values m + v)%Q.
Proof.
  intros Hk. unfold sum_values.
  apply (map_fold_insert Qeq (fun _ v acc => (acc + v)%Q)); [| |exact Hk].
  - intros _ z a b Hab. now rewrite Hab.
  - intros. ring.
Qed.

Lemma sum_values_mix (e d g c : Q) :
  (sum_values (Spec.mix e d g c) == e + d + g + c)%Q.
Proof.
  unfold Spec.mix. cbn [list_to_map foldr fst snd].
  rewrite !sum_values_insert
    by (rewrite ?lookup_insert_ne by discriminate; apply lookup_empty).
  unfold sum_values. rewrite map_fold_empty. ring.
Qed.

Lemma fmap_mix (f : Q -> Q) (e d g c : Q) :
  f <$> Spec.mix e d g c = Spec.mix (f e) (f d) (f g) (f c).
Proof.
  unfold Spec.mix. cbn [list_to_map foldr fst snd].
  now rewrite !fmap_insert, fmap_empty.
Qed.

Lemma lookup_mix (e d g c : Q) (k : string) (v : Q) :
  Spec.mix e d g c !! k = Some v ->
  (k = "Equity"%string /\ v = e) \/ (k = "Debt"%string /\ v = d)
  \/ (k = "Gold"%string /\ v = g) \/ (k = "Cash"%string /\ v = c).
Proof.
  unfold Spec.mix. cbn [list_to_map foldr fst snd].
  rewrite !lookup_insert_Some, lookup_empty. intros H.
  repeat (destruct H as [[<- <-] | [_ H]]; [auto 6|]). discriminate.
Qed.

(** The dictionary [out] at the end of the loop over [keys]. *)
Lemma normalize_out (raw_alloc : gmap string pyval) (default_alloc : gmap string Q) :
  fold_left (fun out k => <[k := coerce raw_alloc default_alloc k]> out)
            keys (∅ : gmap string Q)
  = Spec.mix (coerce raw_alloc default_alloc "Equity")
             (coerce raw_alloc default_alloc "Debt")
             (coerce raw_alloc default_alloc "Gold")
             (coerce raw_alloc default_alloc "Cash").
Proof.
  unfold keys, Spec.mix. cbn [fold_left list_to_map foldr fst snd].
  apply map_eq. intros k. rewrite !lookup_insert. repeat case_decide; congruence.
Qed.

Lemma normalize_out_sum (raw_alloc : gmap string pyval) (default_alloc : gmap string Q) :
  (sum_values
     (fold_left (fun out k => <[k := coerce raw_alloc default_alloc k]> out)
                keys (∅ : gmap string Q))
   == Spec.coerced_total raw_alloc default_alloc)%Q.
Proof. rewrite normalize_out, sum_values_mix. reflexivity. Qed.


Lemma normalize_gt_0 (raw_alloc : gmap string pyval) (default_alloc : gmap string Q) :
  (0 < Spec.coerced_total raw_alloc default_alloc)%Q ->
  exists s, (s == Spec.coerced_total raw_alloc default_alloc)%Q /\
    normalize_allocation raw_alloc default_alloc
    = Spec.mix (coerce raw_alloc default_alloc "Equity" / s)
               (coerce raw_alloc default_alloc "Debt" / s)
               (coerce raw_alloc default_alloc "Gold" / s)
               (coerce raw_alloc default_alloc "Cash" / s).
Proof.
  intros Hlt. unfold normalize_allocation.
  pose proof (normalize_out_sum raw_alloc default_alloc) as Hs.
  set (out := fold_left _ keys ∅) in *.
  exists (sum_values out). split; [exact Hs|].
  destruct (Qle_bool (sum_values out) 0) eqn:Hb.
  - apply Qle_bool_iff in Hb. rewrite Hs in Hb.
    exfalso. apply (Qlt_not_le _ _ Hlt Hb).
  - subst out. rewrite normalize_out.
    exact (fmap_mix (fun v => (v / _)%Q) _ _ _ _).
Qed.

Lemma suggest_allocation_rows :
  suggest_allocation_from_risk "Low" = Spec.mix 0.20 0.65 0.10 0.05
  /\ suggest_allocation_from_risk "Medium" = Spec.mix 0.55 0.30 0.10 0.05
  /\ suggest_allocation_from_risk "High" = Spec.mix 0.75 0.15 0.05 0.05.
Proof.
  repeat split;
    unfold suggest_allocation_from_risk, Spec.mix;
    cbn [String.eqb Ascii.eqb Bool.eqb list_to_map foldr fst snd];
    (apply map_eq; intros k; rewrite !lookup_insert;
     repeat case_decide; congruence).
Qed.

(** C4.  The allocation and the expected return of each tier are the rows
    of the specification's table. *)
Theorem allocation_table :
  (suggest_allocation_from_risk "Low" = Spec.mix 0.20 0.65 0.10 0.05
   /\ expected_return_from_risk "Low" = Some 0.07%Q)
  /\ (suggest_allocation_from_risk "Medium" = Spec.mix 0.55 0.30 0.10 0.05
      /\ expected_return_from_risk "Medium" = Some 0.11%Q)
  /\ (suggest_allocation_from_risk "High" = Spec.mix 0.75 0.15 0.05 0.05
      /\ expected_return_from_risk "High" = Some 0.14%Q).
Proof.
  destruct suggest_allocation_rows as (Hl & Hm & Hh).
  repeat split; try assumption; reflexivity.
Qed.

Lemma valid_mix_intro (e d g c : Q) :
  (0 <= e)%Q -> (0 <= d)%Q -> (0 <= g)%Q -> (0 <= c)%Q ->
  (e + d + g + c == 1)%Q -> Spec.valid_mix (Spec.mix e d g c).
Proof.
  intros He Hd Hg Hc Hsum. split.
  - intros k v Hk.
    destruct (lookup_mix _ _ _ _ _ _ Hk) as [[_ ->]|[[_ ->]|[[_ ->]|[_ ->]]]];
      assumption.
  - now rewrite sum_values_mix.
Qed.


Lemma coerce_num (raw_alloc : gmap string pyval) (default_alloc : gmap string Q)
    (k : string) (q : Q) :
  raw_alloc !! k = Some (Num q) -> coerce raw_alloc default_alloc k = q.
Proof. intros Hk. unfold coerce. now rewrite Hk. Qed.

(** The raw mappings used as examples below. *)
Example raw_negative_debt_total :
  (0 < Spec.coerced_total
         (<["Equity"%string := Num 2]> (<["Debt"%string := Num (-1)]>
           (<["Gold"%string := Num 0]> (<["Cash"%string := Num 0]> ∅))))
         (suggest_allocation_from_risk "Medium"))%Q.
Proof. reflexivity. Qed.

(** C5, as stated, fails for [normalize]: a raw mapping with a negative
    entry and a positive total (Equity 2, Debt -1, Gold 0, Cash 0: total
    1) is rescaled into a mix whose Debt weight is negative. *)
Lemma normalize_negative_weight_counterexample :
  (0 < Spec.coerced_total
         (<["Equity"%string := Num 2]> (<["Debt"%string := Num (-1)]>
           (<["Gold"%string := Num 0]> (<["Cash"%string := Num 0]> ∅))))
         (suggest_allocation_from_risk "Medium"))%Q
  /\ (exists v,
        normalize_allocation
          (<["Equity"%string := Num 2]> (<["Debt"%string := Num (-1)]>
            (<["Gold"%string := Num 0]> (<["Cash"%string := Num 0]> ∅))))
          (suggest_allocation_from_risk "Medium") !! "Debt"%string = Some v
        /\ (v < 0)%Q)
  /\ ~ Spec.valid_mix
        (normalize_allocation
          (<["Equity"%string := Num 2]> (<["Debt"%string := Num (-1)]>
            (<["Gold"%string := Num 0]> (<["Cash"%string := Num 0]> ∅))))
          (suggest_allocation_from_risk "Medium")).
Proof.
  split; [exact raw_negative_debt_total|].
  assert (Hv : exists v,
    normalize_allocation
      (<["Equity"%string := Num 2]> (<["Debt"%string := Num (-1)]>
        (<["Gold"%string := Num 0]> (<["Cash"%string := Num 0]> ∅))))
      (suggest_allocation_from_risk "Medium") !! "Debt"%string = Some v
    /\ (v < 0)%Q).
  { eexists. split; [vm_compute; reflexivity|reflexivity]. }
  split; [exact Hv|].
  destruct Hv as (v & Hv & Hneg). intros [Hnn _].
  apply (Qlt_not_le _ _ Hneg). exact (Hnn _ _ Hv).
Qed.

(** C5, amended.  The allocation of each of the three tiers has
    non-negative weights that sum to 1; for a raw mapping whose coerced
    four-key total is positive, the weights of [normalize] sum to 1, and
    none is negative provided no coerced entry is. *)
Theorem allocation_mix_invariant :
  (Spec.valid_mix (suggest_allocation_from_risk "Low")
   /\ Spec.valid_mix (suggest_allocation_from_risk "Medium")
   /\ Spec.valid_mix (suggest_allocation_from_risk "High"))
  /\ forall (raw_alloc : gmap string pyval) (default_alloc : gmap string Q),
       (0 < Spec.coerced_total raw_alloc default_alloc)%Q ->
       (sum_values (normalize_allocation raw_alloc default_alloc) == 1)%Q
       /\ ((forall k, k ∈ keys -> (0 <= coerce raw_alloc default_alloc k)%Q) ->
           Spec.nonneg_weights (normalize_allocation raw_alloc default_alloc)).
Proof.
  split.
  - destruct suggest_allocation_rows as (-> & -> & ->).
    repeat split; try (apply valid_mix_intro; try discriminate; reflexivity).
  - intros raw_alloc default_alloc Hpos.
    destruct (normalize_gt_0 _ _ Hpos) as (s & Hs & ->).
    assert (Hs0 : (0 < s)%Q) by now rewrite Hs.
    split.
    + assert (Hne : ~ (s == 0)%Q)
        by (intros H0; rewrite H0 in Hs0; discriminate).
      rewrite sum_values_mix. unfold Spec.coerced_total in Hs.
      set (e := coerce raw_alloc default_alloc "Equity") in *.
      set (d := coerce raw_alloc default_alloc "Debt") in *.
      set (g := coerce raw_alloc default_alloc "Gold") in *.
      set (c := coerce raw_alloc default_alloc "Cash") in *.
      transitivity ((e + d + g + c) / s)%Q; [field; exact Hne|].
      rewrite <- Hs. field; exact Hne.
    + intros Hnn k v Hk.
      assert (Hdiv : forall x, (0 <= x)%Q -> (0 <= x / s)%Q).
      { intros x Hx. apply Qle_shift_div_l; [exact Hs0|].
        now rewrite Qmult_0_l. }
      unfold keys in Hnn.
      destruct (lookup_mix _ _ _ _ _ _ Hk) as [[_ ->]|[[_ ->]|[[_ ->]|[_ ->]]]];
        apply Hdiv, Hnn; set_solver.
Qed.

Lemma allocation_mix_invariant_witness :
  (0 < Spec.coerced_total
         (<["Equity"%string := Num 3]> (<["Debt"%string := NonNum]> ∅))
         (suggest_allocation_from_risk "Medium"))%Q
  /\ (sum_values
        (normalize_allocation
           (<["Equity"%string := Num 3]> (<["Debt"%string := NonNum]> ∅))
           (suggest_allocation_from_risk "Medium")) == 1)%Q
  /\ Spec.nonneg_weights
       (normalize_allocation
          (<["Equity"%string := Num 3]> (<["Debt"%string := NonNum]> ∅))
          (suggest_allocation_from_risk "Medium")).
Proof.
  assert (Hpos : (0 < Spec.coerced_total
         (<["Equity"%string := Num 3]> (<["Debt"%string := NonNum]> ∅))
         (suggest_allocation_from_risk "Medium"))%Q) by reflexivity.
  split; [exact Hpos|].
  destruct (proj2 allocation_mix_invariant _ _ Hpos) as [Hsum Hnn].
  split; [exact Hsum|]. apply Hnn.
  intros k Hk. unfold keys in Hk.
  repeat (apply elem_of_cons in Hk; destruct Hk as [-> | Hk];
          [vm_compute; discriminate|]).
  now apply elem_of_nil in Hk.
Defined.





End allocation.

(** ** Projection engine *)

Section projection_engine.
Local Open Scope R_scope.

(** C7, as stated, fails: with a principal of 0 the future value is 0
    after any number of periods, so it does not grow from period 0 to
    period 1 at a rate of 10%. *)
Lemma fv_lump_sum_zero_principal_counterexample :
  0 < 1 / 10 /\ (0 < 1)%nat
  /\ fv_lump_sum 0 (1 / 10) 0 = 0 /\ fv_lump_sum 0 (1 / 10) 1 = 0
  /\ ~ fv_lump_sum 0 (1 / 10) 0 < fv_lump_sum 0 (1 / 10) 1.
Proof.
  unfold fv_lump_sum. cbn [pow].
  repeat split; try lra; lia.
Qed.

(** C7, amended.  For a principal above 0 and a periodic rate above 0,
    [fv_lump_sum] is [P * (1 + r) ^ n] and grows strictly with the number
    of periods. *)
Theorem fv_lump_sum_strictly_increasing (P r : R) (n1 n2 : nat) :
  0 < P -> 0 < r -> (n1 < n2)%nat ->
  fv_lump_sum P r n1 = P * (1 + r) ^ n1
  /\ fv_lump_sum P r n1 < fv_lump_sum P r n2.
Proof.
  intros HP Hr Hn. split; [reflexivity|]. unfold fv_lump_sum.
  apply Rmult_lt_compat_l; [exact HP|].
  apply Rlt_pow; [lra|exact Hn].
Qed.

Lemma fv_lump_sum_strictly_increasing_witness :
  0 < 100 /\ 0 < 1 / 10 /\ (0 < 1)%nat
  /\ fv_lump_sum 100 (1 / 10) 0 < fv_lump_sum 100 (1 / 10) 1.
Proof.
  split; [lra|]. split; [lra|]. split; [lia|].
  apply (fv_lump_sum_strictly_increasing 100 (1 / 10) 0 1); [lra|lra|lia].
Defined.

Lemma monthly_factor (annual_rate : R) :
  1 + annual_to_monthly_rate annual_rate = Rpower (1 + annual_rate) (1 / 12).
Proof. unfold annual_to_monthly_rate. ring. Qed.

Lemma monthly_factor_pow_12 (r : R) :
  0 <= r -> (1 + annual_to_monthly_rate r) ^ 12 = 1 + r.
Proof.
  intros Hr. rewrite monthly_factor.
  rewrite <- Rpower_pow by apply exp_pos.
  rewrite Rpower_mult.
  replace (1 / 12 * INR 12) with 1 by (cbn [INR]; lra).
  apply Rpower_1. lra.
Qed.

(** Twelve months at a twelfth of the annual rate grow by more than the
    annual rate. *)
Lemma simple_division_overshoots (r : R) :
  0 < r -> 1 + r < (1 + r / 12) ^ 12.
Proof.
  intros Hr.
  pose proof (poly 11 (r / 12) ltac:(lra)) as H11.
  rewrite INR_IZR_INZ in H11. change (Z.of_nat 11) with 11%Z in H11.
  rewrite <- (tech_pow_Rmult (1 + r / 12) 11).
  set (p := (1 + r / 12) ^ 11) in *.
  assert (Hmul : (1 + r / 12) * (1 + 11 * (r / 12)) <= (1 + r / 12) * p)
    by (apply Rmult_le_compat_l; lra).
  assert (Hsq : 0 < r * r) by (apply Rmult_lt_0_compat; exact Hr).
  apply Rlt_le_trans with (2 := Hmul).
  replace ((1 + r / 12) * (1 + 11 * (r / 12)))
    with (1 + r + 11 / 144 * (r * r)) by field.
  lra.
Qed.

(** C8.  The monthly rate of a zero annual rate is zero, and for an
    annual rate between 0 and 1 compounding the monthly rate over twelve
    months gives back the annual growth factor (exactly, over the
    reals); the monthly rate is the twelfth root of the growth factor
    less one, which for a positive rate is below the rate divided by
    12. *)
Theorem annual_to_monthly_rate_roundtrip :
  annual_to_monthly_rate 0 = 0
  /\ forall r : R, 0 <= r <= 1 ->
       (1 + annual_to_monthly_rate r) ^ 12 = 1 + r
       /\ annual_to_monthly_rate r = Rpower (1 + r) (1 / 12) - 1
       /\ (0 < r -> annual_to_monthly_rate r < r / 12).
Proof.
  split.
  - unfold annual_to_monthly_rate, Rpower.
    rewrite Rplus_0_r, ln_1, Rmult_0_r, exp_0. ring.
  - intros r [Hr0 Hr1]. split; [now apply monthly_factor_pow_12|].
    split; [reflexivity|]. intros Hpos.
    destruct (Rlt_le_dec (annual_to_monthly_rate r) (r / 12)) as [Hlt | Hge];
      [exact Hlt|exfalso].
    assert (Hle : (1 + r / 12) ^ 12 <= (1 + annual_to_monthly_rate r) ^ 12)
      by (apply pow_incr; lra).
    rewrite monthly_factor_pow_12 in Hle by exact Hr0.
    exact (Rle_not_lt _ _ Hle (simple_division_overshoots r Hpos)).
Qed.

Lemma annual_to_monthly_rate_roundtrip_witness :
  0 <= 11 / 100 <= 1
  /\ (1 + annual_to_monthly_rate (11 / 100)) ^ 12 = 1 + 11 / 100
  /\ (0 < 11 / 100 /\ annual_to_monthly_rate (11 / 100) < 11 / 100 / 12).
Proof.
  assert (Hr : 0 <= 11 / 100 <= 1) by lra.
  assert (Hpos : 0 < 11 / 100) by lra.
  split; [exact Hr|].
  destruct (proj2 annual_to_monthly_rate_roundtrip (11 / 100) Hr)
    as (Hpow & _ & Hlt).
  split; [exact Hpow|]. split; [exact Hpos|exact (Hlt Hpos)].
Defined.

Lemma discount_to_present_defined (future_value inflation_rate : R) (years : nat) :
  1 + inflation_rate <> 0 ->
  discount_to_present future_value inflation_rate years
  = Some (future_value / (1 + inflation_rate) ^ years).
Proof.
  intros Hne. unfold discount_to_present.
  destruct (Req_dec_T ((1 + inflation_rate) ^ years) 0) as [H0 | _];
    [|reflexivity].
  exfalso. revert H0. now apply pow_nonzero.
Qed.

Lemma mapM_total {A B} (f : A -> option B) (g : A -> B) (l : list A) :
  (forall x, f x = Some (g x)) -> mapM f l = Some (map g l).
Proof.
  intros Hf. induction l as [|x l IH]; [reflexivity|].
  cbn. rewrite Hf. cbn. rewrite IH. reflexivity.
Qed.

Lemma inflation_adjust_series_defined (values : list R) (inflation_rate : R)
    (years_list : list nat) :
  1 + inflation_rate <> 0 ->
  inflation_adjust_series values inflation_rate years_list
  = Some (map (fun p : R * nat => p.1 / (1 + inflation_rate) ^ p.2)
              (zip values years_list)).
Proof.
  intros Hne. unfold inflation_adjust_series. apply mapM_total.
  intros [v yr]. now apply discount_to_present_defined.
Qed.

(** C10.  On two sequences of any lengths, equal or not,
    [inflation_adjust_series] returns a sequence as long as the shorter
    one, whose element at each paired position is the value discounted by
    the year count at the same position; the unpaired tail is dropped.
    (The inflation rate is not -1, the one rate at which the discount
    factor is zero.) *)
Theorem inflation_adjust_series_unequal_lengths (values : list R)
    (inflation_rate : R) (years_list : list nat) :
  1 + inflation_rate <> 0 ->
  exists out : list R,
    inflation_adjust_series values inflation_rate years_list = Some out
    /\ length out = Nat.min (length values) (length years_list)
    /\ forall (i : nat) (v : R) (yr : nat),
         values !! i = Some v -> years_list !! i = Some yr ->
         out !! i = Some (v / (1 + inflation_rate) ^ yr).
Proof.
  intros Hne. eexists. split; [now apply inflation_adjust_series_defined|].
  split.
  - rewrite length_map. apply length_zip_with.
  - intros i v yr Hv Hyr. rewrite list_lookup_fmap.
    rewrite lookup_zip_with, Hv. cbn. rewrite Hyr. reflexivity.
Qed.

Lemma inflation_adjust_series_unequal_lengths_witness :
  1 + 5 / 100 <> 0
  /\ exists out : list R,
       inflation_adjust_series [100; 200; 300] (5 / 100) [1%nat; 2%nat] = Some out
       /\ length out = 2%nat
       /\ out !! 1%nat = Some (200 / (1 + 5 / 100) ^ 2).
Proof.
  assert (Hne : 1 + 5 / 100 <> 0) by lra.
  split; [exact Hne|].
  destruct (inflation_adjust_series_unequal_lengths
              [100; 200; 300] (5 / 100) [1%nat; 2%nat] Hne)
    as (out & Hout & Hlen & Hnth).
  exists out. split; [exact Hout|]. split; [exact Hlen|].
  apply Hnth; reflexivity.
Defined.

End projection_engine.

(** ** The year-by-year simulation against the closed form *)

Section trajectory.
Local Open Scope R_scope.

Variables rm monthly_invest : R.

(** After [n] months the simulated balance is the lump-sum future value
    of the opening balance plus the annuity future value of the monthly
    contribution. *)
Lemma month_steps_closed_form (bal : R) (n : nat) :
  Nat.iter n (month_step rm monthly_invest) bal
  = fv_lump_sum bal rm n + fv_annuity monthly_invest rm n.
Proof.
  unfold fv_lump_sum, fv_annuity.
  induction n as [|n IH].
  - simpl. destruct (Req_dec_T rm 0); [ring|field; assumption].
  - rewrite Nat.iter_succ, IH. unfold month_step.
    destruct (Req_dec_T rm 0) as [-> | Hne].
    + rewrite S_INR. cbn [pow]. ring.
    + cbn [pow]. field. assumption.
Qed.

(** The state after the loop over a list of years: twelve months per
    year on the balance, one snapshot per year appended. *)
Lemma year_steps (years : list nat) (bal : R) (balances : list R) :
  fold_left (year_step rm monthly_invest) years (bal, balances)
  = (Nat.iter (12 * length years) (month_step rm monthly_invest) bal,
     balances ++ map (fun j => Nat.iter (12 * j) (month_step rm monthly_invest) bal)
                     (seq 1 (length years))).
Proof.
  revert bal balances. induction years as [|y years IH]; intros bal balances.
  - cbn. now rewrite app_nil_r.
  - cbn [fold_left length]. unfold year_step at 2. cbn [fst snd].
    rewrite IH. cbn [seq map]. rewrite <- app_assoc. cbn [app].
    f_equal.
    + replace (12 * S (length years))%nat with (12 * length years + 12)%nat by lia.
      now rewrite Nat.iter_add.
    + do 2 f_equal.
      rewrite <- (seq_shift (length years) 1), map_map. apply map_ext. intros j.
      replace (12 * S j)%nat with (12 * j + 12)%nat by lia.
      now rewrite Nat.iter_add.
Qed.

End trajectory.

Section trajectory_corpus.
Local Open Scope R_scope.

Lemma yearly_balances_snapshots (current_savings monthly_invest exp_ret : R)
    (horizon : nat) :
  yearly_balances current_savings monthly_invest exp_ret horizon
  = map (fun j => project_corpus current_savings monthly_invest exp_ret j)
        (seq 1 horizon).
Proof.
  unfold yearly_balances. rewrite year_steps. cbn [snd app].
  rewrite length_seq. apply map_ext. intros j.
  rewrite month_steps_closed_form. unfold project_corpus.
  now rewrite (Nat.mul_comm j 12).
Qed.

(** C1.  For non-negative savings, contribution and annual return and at
    least one year, the month-by-month simulation yields one balance per
    year, and the last one is the closed-form corpus of [project_corpus]
    (equal as real numbers). *)
Theorem yearly_balances_agree_with_project_corpus
    (current_savings monthly_invest annual_return : R) (years : nat) :
  0 <= current_savings -> 0 <= monthly_invest -> 0 <= annual_return ->
  (1 <= years)%nat ->
  length (yearly_balances current_savings monthly_invest annual_return years)
  = years
  /\ last (yearly_balances current_savings monthly_invest annual_return years)
     = Some (project_corpus current_savings monthly_invest annual_return years).
Proof.
  intros _ _ _ Hyears. rewrite yearly_balances_snapshots. split.
  - now rewrite length_map, length_seq.
  - destruct years as [|n]; [lia|].
    rewrite seq_S, map_app. cbn [map]. rewrite last_snoc.
    reflexivity.
Qed.

Lemma yearly_balances_agree_with_project_corpus_witness :
  (0 <= 0 /\ 0 <= 20000 /\ 0 <= 11 / 100 /\ (1 <= 15)%nat)
  /\ length (yearly_balances 0 20000 (11 / 100) 15) = 15%nat
  /\ last (yearly_balances 0 20000 (11 / 100) 15)
     = Some (project_corpus 0 20000 (11 / 100) 15).
Proof.
  split; [repeat split; try lra; lia|].
  apply (yearly_balances_agree_with_project_corpus 0 20000 (11 / 100) 15);
    try lra; lia.
Defined.

End trajectory_corpus.

(** ** The advisor note without the narrator *)

Section narrator_fallback.

Lemma attempts_all_failed (post : nat -> response) (remaining attempt : nat) :
  (forall i, (attempt <= i < attempt + remaining)%nat -> Spec.failed (post i)) ->
  attempts post attempt remaining = None.
Proof.
  revert attempt. induction remaining as [|k IH]; intros attempt Hfail;
    [reflexivity|].
  cbn [attempts].
  assert (Hnext : attempts post (S attempt) k = None)
    by (apply IH; intros i Hi; apply Hfail; lia).
  pose proof (Hfail attempt ltac:(lia)) as Hnow.
  destruct (post attempt) as [|code content]; [exact Hnext|].
  destruct (Z.eqb_spec code 200) as [-> | Hne]; [|exact Hnext].
  destruct Hnow as [Hcode | ->]; [contradiction|exact Hnext].
Qed.

Lemma call_llm_absent (api_key : option string) (post : nat -> response) :
  Spec.narrator_absent api_key post ->
  call_llm_with_backoff api_key post 2 = None.
Proof.
  intros [-> | Hfail]; [reflexivity|].
  unfold call_llm_with_backoff.
  destruct api_key as [[|c key]|]; try reflexivity.
  apply attempts_all_failed. intros i Hi. apply Hfail. lia.
Qed.

Lemma infer_risk_expected_return (age horizon : Z) (goals : list string)
    (mi inc : Q) :
  exists e, expected_return_from_risk (infer_risk age horizon goals mi inc).1
            = Some e.
Proof.
  rewrite infer_risk_tier. unfold Spec.tier.
  repeat case_decide; eexists; reflexivity.
Qed.

Lemma prefix_app (s t : string) : String.prefix s (s +:+ t) = true.
Proof.
  induction s as [|a s IH]; [now destruct t|].
  change (String.prefix (String a s) (String a (s +:+ t)) = true).
  cbn [String.prefix]. destruct (ascii_dec a a); [exact IH|congruence].
Qed.

Lemma contains_prefix (s t : string) : contains s (s +:+ t) = true.
Proof.
  destruct (s +:+ t) eqn:E; cbn [contains]; rewrite <- E, prefix_app;
    reflexivity.
Qed.

Lemma contains_app_r (p s t : string) :
  contains s t = true -> contains s (p +:+ t) = true.
Proof.
  intros H. induction p as [|a p IH]; [exact H|].
  change (contains s (String a (p +:+ t)) = true).
  cbn [contains]. rewrite IH. apply orb_true_r.
Qed.

Lemma fmt_comma0_below_1000 (n : Z) :
  (0 <= n < 1000)%Z -> fmt_comma0 n = str_int n.
Proof.
  intros Hn.
  assert (Hall : forallb (fun k => String.eqb (fmt_comma0 (Z.of_nat k))
                                             (str_int (Z.of_nat k)))
                         (seq 0 1000) = true) by (vm_compute; reflexivity).
  rewrite forallb_forall in Hall.
  specialize (Hall (Z.to_nat n)). rewrite Z2Nat.id in Hall by lia.
  apply String.eqb_eq, Hall, in_seq. lia.
Qed.

(** A run without the narrator completes, with the fallback note and
    every numeric field computed by the engine. *)
Lemma tab_main_narrator_absent (api_key : option string) (post : nat -> response)
    (age : Z) (horizon : nat) (income monthly_invest current_savings : Z)
    (inflation_rate fd_rate : R) (selected_goals : list string) :
  Spec.narrator_absent api_key post ->
  selected_goals <> [] ->
  (1 + inflation_rate)%R <> 0%R ->
  exists ctx,
    tab_main api_key post age horizon income monthly_invest current_savings
             inflation_rate fd_rate selected_goals true = Completed ctx
    /\ ctx_risk_level ctx
       = (infer_risk age (Z.of_nat horizon) selected_goals
                     (inject_Z monthly_invest) (inject_Z income)).1
    /\ expected_return_from_risk (ctx_risk_level ctx) = Some (ctx_exp_ret ctx)
    /\ advice ctx
       = fallback_advice age monthly_invest current_savings horizon
                         (ctx_risk_level ctx) (ctx_exp_ret ctx)
    /\ ctx_port_future ctx
       = project_corpus (IZR current_savings) (IZR monthly_invest)
                        (Q2R (ctx_exp_ret ctx)) horizon
    /\ ctx_balances_nominal ctx
       = yearly_balances (IZR current_savings) (IZR monthly_invest)
                         (Q2R (ctx_exp_ret ctx)) horizon
    /\ length (ctx_balances_real ctx) = horizon.
Proof.
  intros Habsent Hgoals Hinfl. unfold tab_main.
  destruct selected_goals as [|g goals]; [congruence|].
  destruct (infer_risk_expected_return age (Z.of_nat horizon) (g :: goals)
              (inject_Z monthly_invest) (inject_Z income)) as [e He].
  destruct (infer_risk age (Z.of_nat horizon) (g :: goals)
              (inject_Z monthly_invest) (inject_Z income))
    as [rule_risk risk_score].
  cbn [fst] in He. rewrite He. cbn [bind].
  rewrite (call_llm_absent _ _ Habsent).
  rewrite !discount_to_present_defined by exact Hinfl. cbn [bind].
  rewrite inflation_adjust_series_defined by exact Hinfl. cbn [bind].
  eexists. split; [reflexivity|]. cbn.
  repeat split; try assumption.
  rewrite length_map, length_zip_with, yearly_balances_snapshots.
  rewrite length_map, !length_seq. lia.
Qed.

(** C6, as stated, fails on the monthly investment: the note renders it
    with thousands separators, so for the form's default of 20000 the
    note holds "20,000" and nowhere the digits "20000". *)
Lemma fallback_advice_not_verbatim_counterexample :
  exists ctx,
    tab_main None (fun _ => Raised) 30 15 100000 20000 0
             (5 / 100)%R (7 / 100)%R ["Wealth Creation"%string] true
    = Completed ctx
    /\ str_int 20000 = "20000"%string
    /\ contains (str_int 20000) (advice ctx) = false
    /\ contains "20,000" (advice ctx) = true.
Proof.
  destruct (tab_main_narrator_absent None (fun _ => Raised) 30 15 100000 20000 0
              (5 / 100)%R (7 / 100)%R ["Wealth Creation"%string])
    as (ctx & Hrun & Hrisk & Hret & Hadv & _).
  - now left.
  - discriminate.
  - lra.
  - exists ctx. split; [exact Hrun|]. split; [reflexivity|].
    assert (Htier : ctx_risk_level ctx = "High"%string)
      by (rewrite Hrisk; vm_compute; reflexivity).
    rewrite Htier in Hret, Hadv.
    change (expected_return_from_risk "High") with (Some 0.14%Q) in Hret.
    assert (Hexp : ctx_exp_ret ctx = 0.14%Q) by congruence.
    rewrite Hadv, Hexp. split; vm_compute; reflexivity.
Qed.

(** C6, amended.  When the narrator is absent (no credential, or both
    attempts fail) the run completes with every numeric field, and the
    note is the non-empty fallback sentence built from the age, the
    monthly investment, the current savings, the horizon, the inferred
    tier and the expected return.  The note holds the age and the horizon
    in decimal as they were entered, the two amounts with thousands
    separators (so verbatim only below 1000), the tier in lower case and
    the return as a percentage with one decimal. *)
Theorem fallback_advice_when_narrator_absent
    (api_key : option string) (post : nat -> response)
    (age : Z) (horizon : nat) (income monthly_invest current_savings : Z)
    (inflation_rate fd_rate : R) (selected_goals : list string) :
  Spec.narrator_absent api_key post ->
  selected_goals <> [] ->
  (1 + inflation_rate)%R <> 0%R ->
  exists ctx,
    tab_main api_key post age horizon income monthly_invest current_savings
             inflation_rate fd_rate selected_goals true = Completed ctx
    /\ (length (ctx_balances_nominal ctx) = horizon
        /\ length (ctx_balances_real ctx) = horizon
        /\ ctx_port_future ctx
           = project_corpus (IZR current_savings) (IZR monthly_invest)
                            (Q2R (ctx_exp_ret ctx)) horizon)
    /\ (ctx_risk_level ctx
        = (infer_risk age (Z.of_nat horizon) selected_goals
                      (inject_Z monthly_invest) (inject_Z income)).1
        /\ expected_return_from_risk (ctx_risk_level ctx) = Some (ctx_exp_ret ctx))
    /\ advice ctx
       = fallback_advice age monthly_invest current_savings horizon
                         (ctx_risk_level ctx) (ctx_exp_ret ctx)
    /\ advice ctx <> ""%string
    /\ contains (str_int age) (advice ctx) = true
    /\ contains (fmt_comma0 monthly_invest) (advice ctx) = true
    /\ contains (fmt_comma0 current_savings) (advice ctx) = true
    /\ contains (str_int (Z.of_nat horizon)) (advice ctx) = true
    /\ contains (lower (ctx_risk_level ctx)) (advice ctx) = true
    /\ contains (fmt_1f (ctx_exp_ret ctx * 100)) (advice ctx) = true
    /\ ((0 <= monthly_invest < 1000)%Z ->
        contains (str_int monthly_invest) (advice ctx) = true).
Proof.
  intros Habsent Hgoals Hinfl.
  destruct (tab_main_narrator_absent api_key post age horizon income
              monthly_invest current_savings inflation_rate fd_rate
              selected_goals Habsent Hgoals Hinfl)
    as (ctx & Hrun & Hrisk & Hret & Hadv & Hport & Hnom & Hreal).
  exists ctx. split; [exact Hrun|]. split; [|split; [now split|]].
  { repeat split; try assumption.
    rewrite Hnom, yearly_balances_snapshots.
    now rewrite length_map, length_seq. }
  split; [exact Hadv|]. rewrite Hadv. unfold fallback_advice.
  split; [discriminate|].
  repeat split;
    try (intros Hsmall; rewrite <- (fmt_comma0_below_1000 _ Hsmall));
    repeat first [apply contains_prefix | apply contains_app_r].
Qed.

Lemma fallback_advice_when_narrator_absent_witness :
  Spec.narrator_absent (Some "sk-or-key"%string)
                       (fun attempt => if (attempt =? 0)%nat then Raised
                                       else Replied 503 Malformed)
  /\ ["Retirement"%string] <> []
  /\ (1 + 5 / 100)%R <> 0%R
  /\ (0 <= 500 < 1000)%Z
  /\ exists ctx,
       tab_main (Some "sk-or-key"%string)
                (fun attempt => if (attempt =? 0)%nat then Raised
                                else Replied 503 Malformed)
                40 10 50000 500 1200 (5 / 100)%R (7 / 100)%R
                ["Retirement"%string] true = Completed ctx
       /\ advice ctx <> ""%string
       /\ contains (str_int 40) (advice ctx) = true
       /\ contains (str_int 500) (advice ctx) = true.
Proof.
  assert (Habsent : Spec.narrator_absent (Some "sk-or-key"%string)
                       (fun attempt => if (attempt =? 0)%nat then Raised
                                       else Replied 503 Malformed)).
  { right. intros [|[|attempt]] Hlt; cbn; [exact I|left; discriminate|lia]. }
  assert (Hgoals : ["Retirement"%string] <> []) by discriminate.
  assert (Hinfl : (1 + 5 / 100)%R <> 0%R) by lra.
  assert (Hsmall : (0 <= 500 < 1000)%Z) by lia.
  repeat (split; [assumption|]).
  destruct (fallback_advice_when_narrator_absent
              (Some "sk-or-key"%string)
              (fun attempt => if (attempt =? 0)%nat then Raised
                              else Replied 503 Malformed)
              40 10 50000 500 1200 (5 / 100)%R (7 / 100)%R
              ["Retirement"%string] Habsent Hgoals Hinfl)
    as (ctx & Hrun & _ & _ & _ & Hne & Hage & _ & _ & _ & _ & _ & Hmi).
  exists ctx. repeat split; try assumption. exact (Hmi Hsmall).
Defined.

End narrator_fallback.

(** * Further properties *)

(** ** Time value of money *)

Section engine_further.
Local Open Scope R_scope.

Lemma fv_annuity_succ (PMT r : R) (n : nat) :
  fv_annuity PMT r (S n) = fv_annuity PMT r n + fv_lump_sum PMT r n.
Proof.
  unfold fv_annuity, fv_lump_sum.
  destruct (Req_dec_T r 0) as [-> | Hne].
  - rewrite S_INR, Rplus_0_r, pow1. ring.
  - rewrite <- tech_pow_Rmult. field. exact Hne.
Qed.

(** X1.  The annuity value is the sum of the lump-sum values of the
    payments, the payment made [k] periods before the end growing for [k]
    periods; this holds in the zero-rate branch as well. *)
Theorem fv_annuity_sum_of_payments (PMT r : R) (n : nat) :
  fv_annuity PMT r n = sum_upto (fun k => fv_lump_sum PMT r k) n.
Proof.
  induction n as [|n IH].
  - unfold fv_annuity. cbn [sum_upto pow INR].
    destruct (Req_dec_T r 0) as [_ | Hne]; [ring|field; exact Hne].
  - rewrite fv_annuity_succ, IH. reflexivity.
Qed.

(** X2.  With a non-negative payment and a non-negative rate, an annuity
    is worth at least what was paid in, and it does not shrink when a
    period is added. *)
Theorem fv_annuity_at_least_paid_in (PMT r : R) (n : nat) :
  0 <= PMT -> 0 <= r ->
  PMT * INR n <= fv_annuity PMT r n
  /\ fv_annuity PMT r n <= fv_annuity PMT r (S n).
Proof.
  intros HP Hr.
  assert (Hterm : forall k, PMT <= fv_lump_sum PMT r k).
  { intros k. unfold fv_lump_sum.
    rewrite <- (Rmult_1_r PMT) at 1.
    apply Rmult_le_compat_l; [exact HP|].
    apply pow_R1_Rle. lra. }
  split.
  - induction n as [|n IH].
    + unfold fv_annuity. cbn [INR pow].
      destruct (Req_dec_T r 0); [lra|].
      right. field. assumption.
    + rewrite fv_annuity_succ, S_INR. pose proof (Hterm n). lra.
  - rewrite fv_annuity_succ. pose proof (Hterm n). lra.
Qed.

Lemma fv_annuity_at_least_paid_in_witness :
  0 <= 20000 /\ 0 <= 1 / 100
  /\ 20000 * INR 3 <= fv_annuity 20000 (1 / 100) 3.
Proof.
  assert (HP : 0 <= 20000) by lra.
  assert (Hr : 0 <= 1 / 100) by lra.
  split; [exact HP|]. split; [exact Hr|].
  exact (proj1 (fv_annuity_at_least_paid_in 20000 (1 / 100) 3 HP Hr)).
Defined.

(** X3.  [discount_to_present] raises exactly when the inflation rate is
    -1 and the number of years is not zero; over zero years it returns
    the value unchanged, whatever the rate. *)
Theorem discount_to_present_fails_iff (future_value inflation_rate : R)
    (years : nat) :
  (discount_to_present future_value inflation_rate years = None
   <-> inflation_rate = -1 /\ years <> 0%nat)
  /\ discount_to_present future_value inflation_rate 0 = Some future_value.
Proof.
  split.
  - unfold discount_to_present.
    destruct (Req_dec_T ((1 + inflation_rate) ^ years) 0) as [H0 | Hne].
    + split; [intros _|reflexivity].
      split.
      * destruct (Req_dec_T (1 + inflation_rate) 0) as [Hz | Hnz]; [lra|].
        exfalso. exact (pow_nonzero _ years Hnz H0).
      * intros ->. cbn [pow] in H0. lra.
    + split; [discriminate|]. intros [-> Hy]. exfalso. apply Hne.
      replace (1 + -1) with 0 by ring. now apply pow_ne_zero.
  - unfold discount_to_present. cbn [pow].
    destruct (Req_dec_T 1 0) as [H | _]; [lra|].
    f_equal. field.
Qed.

Lemma discount_to_present_fails_iff_witness :
  discount_to_present 1000 (-1) 5 = None
  /\ discount_to_present 1000 (-1) 0 = Some 1000.
Proof.
  split.
  - apply (proj1 (discount_to_present_fails_iff 1000 (-1) 5)).
    split; [reflexivity|discriminate].
  - exact (proj2 (discount_to_present_fails_iff 1000 (-1) 0)).
Defined.

(** X4.  Discounting a fixed-deposit corpus at the deposit's own rate
    over the same number of years gives back the principal. *)
Theorem discount_undoes_project_fd_corpus (principal annual_rate : R)
    (years : nat) :
  1 + annual_rate <> 0 ->
  discount_to_present (project_fd_corpus principal annual_rate years)
                      annual_rate years
  = Some principal.
Proof.
  intros Hne. rewrite discount_to_present_defined by exact Hne.
  unfold project_fd_corpus. f_equal. field. now apply pow_nonzero.
Qed.

Lemma discount_undoes_project_fd_corpus_witness :
  1 + 7 / 100 <> 0
  /\ discount_to_present (project_fd_corpus 100000 (7 / 100) 10) (7 / 100) 10
     = Some 100000.
Proof.
  assert (Hne : 1 + 7 / 100 <> 0) by lra.
  split; [exact Hne|].
  exact (discount_undoes_project_fd_corpus 100000 (7 / 100) 10 Hne).
Defined.

(** X5.  Fixed-deposit growth composes: reinvesting the corpus of [a]
    years for [b] more years is the corpus of [a + b] years. *)
Theorem project_fd_corpus_compose (principal annual_rate : R) (a b : nat) :
  project_fd_corpus (project_fd_corpus principal annual_rate a) annual_rate b
  = project_fd_corpus principal annual_rate (a + b).
Proof.
  unfold project_fd_corpus. rewrite pow_add. ring.
Qed.

Lemma annual_to_monthly_rate_0 : annual_to_monthly_rate 0 = 0.
Proof.
  unfold annual_to_monthly_rate, Rpower.
  rewrite Rplus_0_r, ln_1, Rmult_0_r, exp_0. ring.
Qed.

Lemma annual_to_monthly_rate_nonneg (r : R) :
  0 <= r -> 0 <= annual_to_monthly_rate r.
Proof.
  intros Hr. unfold annual_to_monthly_rate.
  assert (H1 : Rpower (1 + r) 0 <= Rpower (1 + r) (1 / 12))
    by (apply Rle_Rpower; lra).
  rewrite Rpower_O in H1 by lra. lra.
Qed.

(** X6.  With an expected return of zero the projected corpus is the
    savings plus the contributions paid in, twelve per year (the
    zero-rate branch of [fv_annuity] is the one taken). *)
Theorem project_corpus_zero_return (current_savings monthly_invest : R)
    (years : nat) :
  project_corpus current_savings monthly_invest 0 years
  = current_savings + monthly_invest * INR (years * 12).
Proof.
  unfold project_corpus. rewrite annual_to_monthly_rate_0.
  unfold fv_lump_sum, fv_annuity.
  destruct (Req_dec_T 0 0) as [_ | Hne]; [|contradiction].
  rewrite Rplus_0_r, pow1. ring.
Qed.

End engine_further.

(** ** The yearly series *)

Section series_further.
Local Open Scope R_scope.

Lemma month_step_grows (rm monthly_invest bal : R) :
  0 <= rm -> 0 <= monthly_invest -> 0 <= bal ->
  bal <= month_step rm monthly_invest bal.
Proof.
  intros Hrm Hmi Hbal. unfold month_step.
  pose proof (Rmult_le_pos _ _ Hbal Hrm) as Hprod.
  replace (bal * (1 + rm)) with (bal + bal * rm) by ring. lra.
Qed.

Lemma month_steps_grow (rm monthly_invest bal : R) (n m : nat) :
  0 <= rm -> 0 <= monthly_invest -> 0 <= bal -> (n <= m)%nat ->
  bal <= Nat.iter n (month_step rm monthly_invest) bal
  /\ Nat.iter n (month_step rm monthly_invest) bal
     <= Nat.iter m (month_step rm monthly_invest) bal.
Proof.
  intros Hrm Hmi Hbal Hnm.
  assert (Hfrom : forall k, bal <= Nat.iter k (month_step rm monthly_invest) bal).
  { induction k as [|k IH]; [apply Rle_refl|].
    rewrite Nat.iter_succ.
    apply Rle_trans with (1 := IH). apply month_step_grows; lra. }
  split; [apply Hfrom|].
  induction Hnm as [|m Hnm IH]; [apply Rle_refl|].
  rewrite Nat.iter_succ. apply Rle_trans with (1 := IH).
  apply month_step_grows; try assumption.
  apply Rle_trans with (1 := Hbal). apply Hfrom.
Qed.

Lemma project_corpus_months (current_savings monthly_invest exp_ret : R)
    (years : nat) :
  project_corpus current_savings monthly_invest exp_ret years
  = Nat.iter (12 * years)
             (month_step (annual_to_monthly_rate exp_ret) monthly_invest)
             current_savings.
Proof.
  rewrite month_steps_closed_form. unfold project_corpus.
  now rewrite (Nat.mul_comm years 12).
Qed.

(** X7.  With non-negative savings, contribution and expected return,
    the yearly balances never fall below the opening savings and never
    decrease from one year to the next. *)
Theorem yearly_balances_non_decreasing
    (current_savings monthly_invest exp_ret : R) (horizon : nat) :
  0 <= current_savings -> 0 <= monthly_invest -> 0 <= exp_ret ->
  (forall (i : nat) (a : R),
      yearly_balances current_savings monthly_invest exp_ret horizon !! i = Some a ->
      current_savings <= a)
  /\ (forall (i : nat) (a b : R),
      yearly_balances current_savings monthly_invest exp_ret horizon !! i = Some a ->
      yearly_balances current_savings monthly_invest exp_ret horizon !! S i = Some b ->
      a <= b).
Proof.
  intros Hcs Hmi Hret.
  pose proof (annual_to_monthly_rate_nonneg exp_ret Hret) as Hrm.
  rewrite yearly_balances_snapshots.
  assert (Hlook : forall i a,
    map (fun j => project_corpus current_savings monthly_invest exp_ret j)
        (seq 1 horizon) !! i = Some a ->
    a = Nat.iter (12 * (1 + i))
                 (month_step (annual_to_monthly_rate exp_ret) monthly_invest)
                 current_savings).
  { intros i a Hi. rewrite list_lookup_fmap in Hi.
    destruct (seq 1 horizon !! i) as [j|] eqn:Hj; [|discriminate].
    apply lookup_seq in Hj as [-> _]. cbn in Hi. injection Hi as <-.
    apply project_corpus_months. }
  split.
  - intros i a Hi. rewrite (Hlook i a Hi).
    apply (month_steps_grow _ _ _ _ _ Hrm Hmi Hcs (Nat.le_refl _)).
  - intros i a b Ha Hb. rewrite (Hlook i a Ha), (Hlook (S i) b Hb).
    apply (month_steps_grow _ _ _ _ _ Hrm Hmi Hcs). lia.
Qed.

Lemma yearly_balances_non_decreasing_witness :
  (0 <= 5000 /\ 0 <= 100 /\ 0 <= 7 / 100)
  /\ exists a b : R,
       yearly_balances 5000 100 (7 / 100) 3 !! 0%nat = Some a
       /\ yearly_balances 5000 100 (7 / 100) 3 !! 1%nat = Some b
       /\ 5000 <= a /\ a <= b.
Proof.
  assert (Hcs : 0 <= 5000) by lra.
  assert (Hmi : 0 <= 100) by lra.
  assert (Hret : 0 <= 7 / 100) by lra.
  split; [auto|].
  destruct (yearly_balances_non_decreasing 5000 100 (7 / 100) 3 Hcs Hmi Hret)
    as [Hfloor Hstep].
  assert (Ha : yearly_balances 5000 100 (7 / 100) 3 !! 0%nat
               = Some (project_corpus 5000 100 (7 / 100) 1))
    by (rewrite yearly_balances_snapshots; reflexivity).
  assert (Hb : yearly_balances 5000 100 (7 / 100) 3 !! 1%nat
               = Some (project_corpus 5000 100 (7 / 100) 2))
    by (rewrite yearly_balances_snapshots; reflexivity).
  exists (project_corpus 5000 100 (7 / 100) 1),
         (project_corpus 5000 100 (7 / 100) 2).
  split; [exact Ha|]. split; [exact Hb|].
  split; [exact (Hfloor _ _ Ha)|exact (Hstep _ _ _ Ha Hb)].
Defined.

(** X8.  With a non-negative inflation rate and non-negative values the
    adjustment succeeds, and every inflation-adjusted value lies between
    zero and the value it was computed from. *)
Theorem inflation_adjusted_at_most_nominal (values : list R)
    (inflation_rate : R) (years_list : list nat) :
  0 <= inflation_rate ->
  (forall (i : nat) (v : R), values !! i = Some v -> 0 <= v) ->
  exists out : list R,
    inflation_adjust_series values inflation_rate years_list = Some out
    /\ forall (i : nat) (v x : R),
         values !! i = Some v -> out !! i = Some x -> 0 <= x <= v.
Proof.
  intros Hinfl Hpos. eexists.
  split; [apply inflation_adjust_series_defined; lra|].
  intros i v x Hv Hx. rewrite list_lookup_fmap, lookup_zip_with, Hv in Hx.
  cbn in Hx. destruct (years_list !! i) as [yr|]; [|discriminate].
  cbn in Hx. injection Hx as <-.
  pose proof (Hpos i v Hv) as Hv0.
  assert (Hd : 1 <= (1 + inflation_rate) ^ yr) by (apply pow_R1_Rle; lra).
  set (d := (1 + inflation_rate) ^ yr) in *.
  assert (Hinv : 0 < / d <= 1).
  { split; [apply Rinv_0_lt_compat; lra|].
    rewrite <- Rinv_1. apply Rinv_le_contravar; lra. }
  unfold Rdiv. split.
  - apply Rmult_le_pos; lra.
  - rewrite <- (Rmult_1_r v) at 2. apply Rmult_le_compat_l; lra.
Qed.

Lemma inflation_adjusted_at_most_nominal_witness :
  0 <= 5 / 100
  /\ (forall (i : nat) (v : R), [100; 200] !! i = Some v -> 0 <= v)
  /\ exists out : list R,
       inflation_adjust_series [100; 200] (5 / 100) [1%nat; 2%nat] = Some out
       /\ forall x : R, out !! 1%nat = Some x -> 0 <= x <= 200.
Proof.
  assert (Hinfl : 0 <= 5 / 100) by lra.
  assert (Hpos : forall (i : nat) (v : R), [100; 200] !! i = Some v -> 0 <= v).
  { intros [|[|i]] v Hv; cbn in Hv; try discriminate; injection Hv as <-; lra. }
  split; [exact Hinfl|]. split; [exact Hpos|].
  destruct (inflation_adjusted_at_most_nominal
              [100; 200] (5 / 100) [1%nat; 2%nat] Hinfl Hpos)
    as (out & Hout & Hle).
  exists out. split; [exact Hout|].
  intros x Hx. exact (Hle 1%nat 200 x eq_refl Hx).
Defined.

End series_further.

(** ** The retry loop *)

Section retry_further.

Lemma failed_dec (r : response) : Spec.failed r \/ ~ Spec.failed r.
Proof.
  destruct r as [|code body]; [now left|]. cbn.
  destruct (Z.eq_dec code 200%Z) as [-> | Hcode]; [|now left; left].
  destruct body; [now left; right| |]; right; intros [H | H];
    congruence.
Qed.

Lemma not_failed_inv (r : response) :
  ~ Spec.failed r ->
  r = Replied 200 Null \/ exists text, r = Replied 200 (Text text).
Proof.
  destruct r as [|code body]; cbn; intros Hnot; [now exfalso; apply Hnot|].
  destruct (Z.eq_dec code 200%Z) as [-> | Hcode];
    [|exfalso; apply Hnot; now left].
  destruct body as [| |text]; [exfalso; apply Hnot; now right|now left|].
  right. now exists text.
Qed.

(** The attempts before the first one that does not fail are passed
    over. *)
Lemma attempts_skip_failed (post : nat -> response) (i remaining attempt : nat) :
  (forall j, (j < i)%nat -> Spec.failed (post (attempt + j)%nat)) ->
  attempts post attempt (i + remaining) = attempts post (attempt + i) remaining.
Proof.
  revert attempt. induction i as [|i IH]; intros attempt Hfail.
  { now rewrite Nat.add_0_r. }
  cbn [Nat.add attempts].
  assert (Hrest : attempts post (S attempt) (i + remaining)
                  = attempts post (attempt + S i) remaining).
  { replace (attempt + S i)%nat with (S attempt + i)%nat by lia.
    apply IH. intros j Hj.
    replace (S attempt + j)%nat with (attempt + S j)%nat by lia.
    apply Hfail. lia. }
  pose proof (Hfail 0%nat ltac:(lia)) as Hnow. rewrite Nat.add_0_r in Hnow.
  destruct (post attempt) as [|code body]; [exact Hrest|].
  destruct (Z.eqb_spec code 200) as [-> | Hne]; [|exact Hrest].
  destruct Hnow as [Hcode | ->]; [contradiction|exact Hrest].
Qed.

Lemma first_not_failed (post : nat -> response) (n : nat) :
  (forall i, (i < n)%nat -> Spec.failed (post i))
  \/ exists i, (i < n)%nat /\ ~ Spec.failed (post i)
       /\ forall j, (j < i)%nat -> Spec.failed (post j).
Proof.
  induction n as [|n IH].
  { left. intros i Hi. lia. }
  destruct IH as [Hall | (i & Hi & Hnot & Hbefore)].
  - destruct (failed_dec (post n)) as [Hn | Hn].
    + left. intros i Hi. destruct (Nat.eq_dec i n) as [-> | Hne];
        [exact Hn|apply Hall; lia].
    + right. exists n. split; [lia|]. split; [exact Hn|exact Hall].
  - right. exists i. split; [lia|]. split; assumption.
Qed.

Lemma attempts_at_first_not_failed (post : nat -> response) (n i : nat) :
  (i < n)%nat ->
  (forall j, (j < i)%nat -> Spec.failed (post j)) ->
  (post i = Replied 200 Null -> attempts post 0 n = None)
  /\ (forall text, post i = Replied 200 (Text text) ->
        attempts post 0 n = Some text).
Proof.
  intros Hi Hbefore.
  replace n with (i + S (n - S i))%nat by lia.
  rewrite (attempts_skip_failed post i (S (n - S i)) 0 Hbefore).
  cbn [Nat.add attempts]. split.
  - intros ->. reflexivity.
  - intros text ->. reflexivity.
Qed.

(** X9.  With a credential, the first attempt that does not fail (a 200
    answer whose body gives a content) decides [call_llm_with_backoff],
    if it comes within [max_retries] attempts: the result is its text, or
    nothing when its content is null.  So a text is returned exactly when
    that attempt carries this text, and nothing is returned exactly when
    every attempt fails or that attempt carries a null content.  Later
    attempts are not consulted. *)
Theorem call_llm_first_success (c : ascii) (key : string)
    (post : nat -> response) (max_retries : nat) (text : string) :
  (call_llm_with_backoff (Some (String c key)) post max_retries = Some text
   <-> exists i, (i < max_retries)%nat
         /\ post i = Replied 200 (Text text)
         /\ forall j, (j < i)%nat -> Spec.failed (post j))
  /\ (call_llm_with_backoff (Some (String c key)) post max_retries = None
      <-> (forall i, (i < max_retries)%nat -> Spec.failed (post i))
          \/ exists i, (i < max_retries)%nat
               /\ post i = Replied 200 Null
               /\ forall j, (j < i)%nat -> Spec.failed (post j)).
Proof.
  cbn [call_llm_with_backoff].
  assert (Hcases := first_not_failed post max_retries).
  split; split.
  - intros Hsome. destruct Hcases as [Hall | (i & Hi & Hnot & Hbefore)].
    + rewrite attempts_all_failed in Hsome; [discriminate|].
      intros j Hj. apply Hall. lia.
    + destruct (attempts_at_first_not_failed post max_retries i Hi Hbefore)
        as [Hnull Htext].
      destruct (not_failed_inv _ Hnot) as [Hpost | [t Hpost]].
      * rewrite (Hnull Hpost) in Hsome. discriminate.
      * rewrite (Htext t Hpost) in Hsome. injection Hsome as ->.
        exists i. repeat split; assumption.
  - intros (i & Hi & Hpost & Hbefore).
    exact (proj2 (attempts_at_first_not_failed post max_retries i Hi Hbefore)
                 text Hpost).
  - intros Hnone. destruct Hcases as [Hall | (i & Hi & Hnot & Hbefore)];
      [now left|].
    destruct (attempts_at_first_not_failed post max_retries i Hi Hbefore)
      as [Hnull Htext].
    destruct (not_failed_inv _ Hnot) as [Hpost | [t Hpost]].
    + right. exists i. repeat split; assumption.
    + rewrite (Htext t Hpost) in Hnone. discriminate.
  - intros [Hall | (i & Hi & Hpost & Hbefore)].
    + apply attempts_all_failed. intros j Hj. apply Hall. lia.
    + exact (proj1 (attempts_at_first_not_failed post max_retries i Hi Hbefore)
                   Hpost).
Qed.

Lemma call_llm_first_success_witness :
  call_llm_with_backoff
    (Some "k"%string)
    (fun i => if (i =? 0)%nat then Replied 429 (Text "busy")
              else Replied 200 (Text "note")) 2
  = Some "note"%string
  /\ call_llm_with_backoff
       (Some "k"%string)
       (fun i => if (i =? 0)%nat then Replied 200 Null
                 else Replied 200 (Text "late")) 2
     = None
  /\ call_llm_with_backoff
       (Some "k"%string)
       (fun i => if (i <? 2)%nat then Replied 200 Malformed
                 else Replied 200 (Text "late")) 2
     = None.
Proof.
  split; [|split].
  - apply (proj1 (call_llm_first_success "k"%char EmptyString
             (fun i => if (i =? 0)%nat then Replied 429 (Text "busy")
                       else Replied 200 (Text "note")) 2 "note"%string)).
    exists 1%nat. split; [lia|]. split; [reflexivity|].
    intros j Hj. destruct j as [|j]; [|lia]. left. discriminate.
  - apply (proj2 (call_llm_first_success "k"%char EmptyString
             (fun i => if (i =? 0)%nat then Replied 200 Null
                       else Replied 200 (Text "late")) 2 EmptyString)).
    right. exists 0%nat. split; [lia|]. split; [reflexivity|].
    intros j Hj. lia.
  - apply (proj2 (call_llm_first_success "k"%char EmptyString
             (fun i => if (i <? 2)%nat then Replied 200 Malformed
                       else Replied 200 (Text "late")) 2 EmptyString)).
    left. intros i Hi. destruct i as [|[|i]]; [now right|now right|lia].
Defined.

Lemma attempts_timed_result (post : nat -> response) (remaining attempt : nat) :
  (attempts_timed post attempt remaining).1 = attempts post attempt remaining.
Proof.
  revert attempt. induction remaining as [|k IH]; intros attempt; [reflexivity|].
  cbn [attempts_timed attempts]. specialize (IH (S attempt)).
  destruct (attempts_timed post (S attempt) k) as [result sleeps].
  cbn [fst] in IH.
  destruct (post attempt) as [|code [| |content]];
    try destruct (code =? 200)%Z; cbn [fst]; auto.
Qed.

Lemma attempts_timed_sleeps_failed (post : nat -> response)
    (remaining attempt : nat) :
  (forall i, (attempt <= i < attempt + remaining)%nat -> Spec.failed (post i)) ->
  (attempts_timed post attempt remaining).2
  = map backoff_delay (seq attempt remaining).
Proof.
  revert attempt. induction remaining as [|k IH]; intros attempt Hfail;
    [reflexivity|].
  cbn [attempts_timed seq map].
  specialize (IH (S attempt) ltac:(intros i Hi; apply Hfail; lia)).
  destruct (attempts_timed post (S attempt) k) as [result sleeps].
  cbn [snd] in IH. subst sleeps.
  pose proof (Hfail attempt ltac:(lia)) as Hnow.
  destruct (post attempt) as [|code body]; [reflexivity|].
  destruct (Z.eqb_spec code 200) as [-> | Hne]; [|reflexivity].
  destruct Hnow as [Hcode | ->]; [contradiction|reflexivity].
Qed.

Lemma attempts_timed_sleeps_decided (post : nat -> response)
    (remaining attempt i : nat) :
  (i < remaining)%nat ->
  ~ Spec.failed (post (attempt + i)%nat) ->
  (forall j, (j < i)%nat -> Spec.failed (post (attempt + j)%nat)) ->
  (attempts_timed post attempt remaining).2 = map backoff_delay (seq attempt i).
Proof.
  revert attempt i. induction remaining as [|k IH]; intros attempt i Hi Hnot Hfail;
    [lia|].
  cbn [attempts_timed]. destruct i as [|i].
  - rewrite Nat.add_0_r in Hnot.
    destruct (not_failed_inv _ Hnot) as [-> | [text ->]]; reflexivity.
  - specialize (IH (S attempt) i ltac:(lia)).
    replace (attempt + S i)%nat with (S attempt + i)%nat in Hnot by lia.
    specialize (IH Hnot).
    assert (Hfail' : forall j, (j < i)%nat -> Spec.failed (post (S attempt + j)%nat)).
    { intros j Hj. specialize (Hfail (S j) ltac:(lia)).
      now replace (attempt + S j)%nat with (S attempt + j)%nat in Hfail by lia. }
    specialize (IH Hfail').
    destruct (attempts_timed post (S attempt) k) as [result sleeps].
    cbn [snd] in IH. subst sleeps. cbn [seq map].
    pose proof (Hfail 0%nat ltac:(lia)) as Hnow. rewrite Nat.add_0_r in Hnow.
    destruct (post attempt) as [|code body]; [reflexivity|].
    destruct (Z.eqb_spec code 200) as [-> | Hne]; [|reflexivity].
    destruct Hnow as [Hcode | ->]; [contradiction|reflexivity].
Qed.

(** X10.  The pauses of [call_llm_with_backoff]: without a credential it
    returns at once; when the first attempt that does not fail is
    attempt [i] (a 200 answer with a text or a null content), it has
    paused after attempts 0 to [i - 1] only and returns without pausing;
    when every attempt fails it pauses after each one, the last
    included, so two failed attempts cost pauses of 1 and 2.1 seconds.
    The result is the one of the untimed loop. *)
Theorem backoff_pauses (api_key : option string) (post : nat -> response)
    (max_retries : nat) :
  (call_llm_with_backoff_timed api_key post max_retries).1
  = call_llm_with_backoff api_key post max_retries
  /\ (api_key = None \/ api_key = Some EmptyString ->
      call_llm_with_backoff_timed api_key post max_retries = (None, []))
  /\ (forall c key i,
        api_key = Some (String c key) -> (i < max_retries)%nat ->
        ~ Spec.failed (post i) ->
        (forall j, (j < i)%nat -> Spec.failed (post j)) ->
        (call_llm_with_backoff_timed api_key post max_retries).2
        = map backoff_delay (seq 0 i))
  /\ (forall c key,
        api_key = Some (String c key) ->
        (forall i, (i < max_retries)%nat -> Spec.failed (post i)) ->
        (call_llm_with_backoff_timed api_key post max_retries).2
        = map backoff_delay (seq 0 max_retries))
  /\ (backoff_delay 0 == 1)%Q /\ (backoff_delay 1 == 2.1)%Q.
Proof.
  split; [|split; [|split; [|split; [|split; reflexivity]]]].
  - destruct api_key as [[|c key]|]; try reflexivity.
    apply attempts_timed_result.
  - intros [-> | ->]; reflexivity.
  - intros c key i -> Hi Hnot Hfail.
    apply (attempts_timed_sleeps_decided post max_retries 0 i Hi Hnot Hfail).
  - intros c key -> Hall.
    apply attempts_timed_sleeps_failed. intros i Hi. apply Hall. lia.
Qed.

Lemma backoff_pauses_witness :
  call_llm_with_backoff_timed None (fun _ => Raised) 2 = (None, [])
  /\ (call_llm_with_backoff_timed
        (Some "k"%string)
        (fun i => if (i =? 0)%nat then Replied 500 Malformed
                  else Replied 200 (Text "note")) 2).2
     = map backoff_delay (seq 0 1)
  /\ (call_llm_with_backoff_timed
        (Some "k"%string) (fun _ => Replied 200 Null) 2).2
     = map backoff_delay (seq 0 0)
  /\ (call_llm_with_backoff_timed (Some "k"%string) (fun _ => Raised) 2).2
     = map backoff_delay (seq 0 2).
Proof.
  split; [|split; [|split]].
  - apply (proj1 (proj2 (backoff_pauses None (fun _ => Raised) 2))). now left.
  - apply (proj1 (proj2 (proj2 (backoff_pauses (Some "k"%string)
             (fun i => if (i =? 0)%nat then Replied 500 Malformed
                       else Replied 200 (Text "note")) 2)))
             "k"%char EmptyString 1%nat); [reflexivity|lia| |].
    + intros [H | H]; [now apply H|discriminate].
    + intros j Hj. destruct j as [|j]; [|lia]. left. discriminate.
  - apply (proj1 (proj2 (proj2 (backoff_pauses (Some "k"%string)
             (fun _ => Replied 200 Null) 2)))
             "k"%char EmptyString 0%nat); [reflexivity|lia| |].
    + intros [H | H]; [now apply H|discriminate].
    + intros j Hj. lia.
  - apply (proj1 (proj2 (proj2 (proj2 (backoff_pauses (Some "k"%string)
             (fun _ => Raised) 2)))) "k"%char EmptyString); [reflexivity|].
    intros i _. exact I.
Defined.

(** X11.  The credential: a non-empty environment variable wins; an
    unset or empty one falls through to the secret; and when neither
    gives a non-empty key no attempt is made and nothing is slept,
    whatever the service would answer. *)
Theorem credential_resolution (env_key secret : option string)
    (post : nat -> response) (max_retries : nat) :
  (forall c k, env_key = Some (String c k) ->
     get_openrouter_key env_key secret = env_key)
  /\ (env_key = None \/ env_key = Some EmptyString ->
      get_openrouter_key env_key secret = secret)
  /\ ((env_key = None \/ env_key = Some EmptyString) ->
      (secret = None \/ secret = Some EmptyString) ->
      call_llm_with_backoff_timed (get_openrouter_key env_key secret)
                                  post max_retries = (None, [])
      /\ call_llm_with_backoff (get_openrouter_key env_key secret)
                               post max_retries = None).
Proof.
  split; [|split].
  - intros c k ->. reflexivity.
  - intros [-> | ->]; reflexivity.
  - intros [-> | ->] [-> | ->]; split; reflexivity.
Qed.

Lemma credential_resolution_witness :
  get_openrouter_key (Some "sk-env"%string) (Some "sk-secret"%string)
  = Some "sk-env"%string
  /\ get_openrouter_key (Some EmptyString) (Some "sk-secret"%string)
     = Some "sk-secret"%string
  /\ call_llm_with_backoff (get_openrouter_key (Some EmptyString) None)
                           (fun _ => Replied 200 (Text "note")) 2
     = None.
Proof.
  split; [|split].
  - apply (proj1 (credential_resolution (Some "sk-env"%string)
             (Some "sk-secret"%string) (fun _ => Raised) 2)
             "s"%char "k-env"%string).
    reflexivity.
  - apply (proj1 (proj2 (credential_resolution (Some EmptyString)
             (Some "sk-secret"%string) (fun _ => Raised) 2))).
    now right.
  - apply (proj2 (proj2 (credential_resolution (Some EmptyString) None
             (fun _ => Replied 200 (Text "note")) 2))); [now right|now left].
Defined.

End retry_further.

(** ** A run of the main tab *)

Section run_further.

Lemma discount_to_present_raises (future_value : R) (years : nat) :
  years <> 0%nat -> discount_to_present future_value (-1) years = None.
Proof.
  intros Hy. unfold discount_to_present.
  destruct (Req_dec_T ((1 + -1) ^ years) 0) as [_ | Hne]; [reflexivity|].
  exfalso. apply Hne. replace (1 + -1)%R with 0%R by ring.
  now apply pow_ne_zero.
Qed.

Lemma tab_main_completed_inv (api_key : option string) (post : nat -> response)
    (age : Z) (horizon : nat) (income monthly_invest current_savings : Z)
    (inflation_rate fd_rate : R) (selected_goals : list string)
    (submitted : bool) (ctx : context) :
  tab_main api_key post age horizon income monthly_invest current_savings
           inflation_rate fd_rate selected_goals submitted = Completed ctx ->
  (submitted = true /\ selected_goals <> [])
  /\ ctx_risk_level ctx
     = (infer_risk age (Z.of_nat horizon) selected_goals
                   (inject_Z monthly_invest) (inject_Z income)).1
  /\ expected_return_from_risk (ctx_risk_level ctx) = Some (ctx_exp_ret ctx)
  /\ ctx_alloc ctx = suggest_allocation_from_risk (ctx_risk_level ctx)
  /\ advice ctx
     = match call_llm_with_backoff api_key post 2 with
       | None | Some EmptyString =>
           fallback_advice age monthly_invest current_savings horizon
                           (ctx_risk_level ctx) (ctx_exp_ret ctx)
       | Some text => text
       end
  /\ ctx_years ctx = seq 1 horizon
  /\ ctx_port_future ctx
     = project_corpus (IZR current_savings) (IZR monthly_invest)
                      (Q2R (ctx_exp_ret ctx)) horizon
  /\ discount_to_present (ctx_port_future ctx) inflation_rate horizon
     = Some (ctx_port_real ctx)
  /\ ctx_balances_nominal ctx
     = yearly_balances (IZR current_savings) (IZR monthly_invest)
                       (Q2R (ctx_exp_ret ctx)) horizon
  /\ inflation_adjust_series (ctx_balances_nominal ctx) inflation_rate
                             (seq 1 horizon)
     = Some (ctx_balances_real ctx)
  /\ ctx_fd_future ctx
     = project_fd_corpus
         (IZR (current_savings + monthly_invest * 12 * Z.of_nat horizon))
         fd_rate horizon
  /\ discount_to_present (ctx_fd_future ctx) inflation_rate horizon
     = Some (ctx_fd_real ctx).
Proof.
  unfold tab_main.
  destruct submitted; [|discriminate].
  destruct selected_goals as [|g goals]; [discriminate|].
  destruct (infer_risk age (Z.of_nat horizon) (g :: goals)
              (inject_Z monthly_invest) (inject_Z income))
    as [rule_risk risk_score].
  destruct (expected_return_from_risk rule_risk) as [e|] eqn:He;
    [|discriminate].
  cbn [bind].
  destruct (discount_to_present (project_corpus _ _ _ _) inflation_rate horizon)
    as [real|] eqn:Hreal; [|discriminate].
  cbn [bind].
  destruct (inflation_adjust_series _ inflation_rate (seq 1 horizon))
    as [reals|] eqn:Hreals; [|discriminate].
  cbn [bind].
  destruct (discount_to_present (project_fd_corpus _ _ _) inflation_rate horizon)
    as [fd_real|] eqn:Hfd; [|discriminate].
  cbn [bind]. intros [= <-]. cbn.
  repeat split; try assumption; discriminate.
Qed.

Lemma tab_main_completes (api_key : option string) (post : nat -> response)
    (age : Z) (horizon : nat) (income monthly_invest current_savings : Z)
    (inflation_rate fd_rate : R) (selected_goals : list string) :
  selected_goals <> [] ->
  (1 + inflation_rate)%R <> 0%R \/ horizon = 0%nat ->
  exists ctx,
    tab_main api_key post age horizon income monthly_invest current_savings
             inflation_rate fd_rate selected_goals true = Completed ctx.
Proof.
  intros Hgoals Hok. unfold tab_main.
  destruct selected_goals as [|g goals]; [congruence|].
  destruct (infer_risk_expected_return age (Z.of_nat horizon) (g :: goals)
              (inject_Z monthly_invest) (inject_Z income)) as [e He].
  destruct (infer_risk age (Z.of_nat horizon) (g :: goals)
              (inject_Z monthly_invest) (inject_Z income))
    as [rule_risk risk_score].
  cbn [fst] in He. rewrite He. cbn [bind].
  destruct Hok as [Hinfl | ->].
  - rewrite !discount_to_present_defined by exact Hinfl. cbn [bind].
    rewrite inflation_adjust_series_defined by exact Hinfl. cbn [bind].
    eexists. reflexivity.
  - unfold discount_to_present. cbn [pow].
    destruct (Req_dec_T 1 0) as [H | _]; [exfalso; lra|].
    cbn [bind]. eexists. reflexivity.
Qed.

(** X12.  What a run of the main tab comes to: nothing is computed
    exactly when the button was not pressed or no goal is selected;
    otherwise the run raises exactly when the inflation rate is -1 and
    the horizon is not zero, and completes in every other case, whatever
    the narrator does. *)
Theorem tab_main_outcome (api_key : option string) (post : nat -> response)
    (age : Z) (horizon : nat) (income monthly_invest current_savings : Z)
    (inflation_rate fd_rate : R) (selected_goals : list string)
    (submitted : bool) :
  (tab_main api_key post age horizon income monthly_invest current_savings
            inflation_rate fd_rate selected_goals submitted = NotRun
   <-> submitted = false \/ selected_goals = [])
  /\ (tab_main api_key post age horizon income monthly_invest current_savings
               inflation_rate fd_rate selected_goals submitted = Raises
      <-> submitted = true /\ selected_goals <> []
          /\ inflation_rate = (-1)%R /\ horizon <> 0%nat).
Proof.
  destruct submitted.
  2:{ split; (split; [intros H|]).
      - now left.
      - reflexivity.
      - discriminate.
      - intros [? _]. discriminate. }
  destruct selected_goals as [|g goals].
  { split; (split; [intros H|]).
    - now right.
    - reflexivity.
    - discriminate.
    - intros (_ & Hne & _). congruence. }
  assert (Hgoals : g :: goals <> []) by discriminate.
  destruct (Req_dec_T (1 + inflation_rate) 0) as [Hz | Hnz].
  - assert (Hinfl : inflation_rate = (-1)%R) by lra. subst inflation_rate.
    destruct (Nat.eq_dec horizon 0) as [Hh | Hh].
    + destruct (tab_main_completes api_key post age horizon income monthly_invest
                  current_savings (-1)%R fd_rate (g :: goals) Hgoals
                  (or_intror Hh)) as [ctx Hctx].
      rewrite Hctx. split; (split; [discriminate|]).
      * intros [H | H]; discriminate.
      * intros (_ & _ & _ & H). contradiction.
    + assert (Hraises : tab_main api_key post age horizon income monthly_invest
                current_savings (-1)%R fd_rate (g :: goals) true = Raises).
      { unfold tab_main.
        destruct (infer_risk age (Z.of_nat horizon) (g :: goals)
                    (inject_Z monthly_invest) (inject_Z income))
          as [rule_risk risk_score].
        destruct (expected_return_from_risk rule_risk); [|reflexivity].
        cbn [bind]. now rewrite discount_to_present_raises. }
      rewrite Hraises. split; (split; [intros H|]); try discriminate; auto.
      intros [H | H]; discriminate.
  - destruct (tab_main_completes api_key post age horizon income monthly_invest
                current_savings inflation_rate fd_rate (g :: goals) Hgoals
                (or_introl Hnz)) as [ctx Hctx].
    rewrite Hctx. split; (split; [discriminate|]).
    + intros [H | H]; discriminate.
    + intros (_ & _ & -> & _). exfalso. apply Hnz. ring.
Qed.

Lemma tab_main_outcome_witness :
  tab_main None (fun _ => Raised) 30 15 100000 20000 0 (5 / 100)%R (7 / 100)%R
           [] true = NotRun
  /\ tab_main None (fun _ => Raised) 30 15 100000 20000 0 (-1)%R (7 / 100)%R
              ["Retirement"%string] true = Raises.
Proof.
  split.
  - apply (proj1 (tab_main_outcome None (fun _ => Raised) 30 15 100000 20000 0
                    (5 / 100)%R (7 / 100)%R [] true)).
    now right.
  - apply (proj2 (tab_main_outcome None (fun _ => Raised) 30 15 100000 20000 0
                    (-1)%R (7 / 100)%R ["Retirement"%string] true)).
    repeat split; [discriminate|lia].
Defined.

(** X13.  The narrator only writes the note: two runs on the same form
    input, with any two credentials and any two behaviours of the
    service, agree on everything but the advisor note (risk level,
    allocation, expected return, corpus figures and both yearly
    series), and fail or are skipped together. *)
Theorem tab_main_numbers_ignore_narrator
    (api_key1 api_key2 : option string) (post1 post2 : nat -> response)
    (age : Z) (horizon : nat) (income monthly_invest current_savings : Z)
    (inflation_rate fd_rate : R) (selected_goals : list string)
    (submitted : bool) :
  forget_advice
    (tab_main api_key1 post1 age horizon income monthly_invest current_savings
              inflation_rate fd_rate selected_goals submitted)
  = forget_advice
      (tab_main api_key2 post2 age horizon income monthly_invest current_savings
                inflation_rate fd_rate selected_goals submitted).
Proof.
  unfold tab_main.
  destruct submitted; [|reflexivity].
  destruct selected_goals as [|g goals]; [reflexivity|].
  destruct (infer_risk age (Z.of_nat horizon) (g :: goals)
              (inject_Z monthly_invest) (inject_Z income))
    as [rule_risk risk_score].
  destruct (expected_return_from_risk rule_risk) as [e|]; [|reflexivity].
  cbn [bind].
  destruct (discount_to_present (project_corpus _ _ _ _) inflation_rate horizon);
    [|reflexivity].
  cbn [bind].
  destruct (inflation_adjust_series _ inflation_rate (seq 1 horizon));
    [|reflexivity].
  cbn [bind].
  destruct (discount_to_present (project_fd_corpus _ _ _) inflation_rate horizon);
    [|reflexivity].
  reflexivity.
Qed.

End run_further.

Section run_consistency.

Lemma discount_to_present_some_nonzero (future_value inflation_rate x : R)
    (years : nat) :
  years <> 0%nat ->
  discount_to_present future_value inflation_rate years = Some x ->
  (1 + inflation_rate)%R <> 0%R.
Proof.
  intros Hy Hx Hz.
  assert (Hinfl : inflation_rate = (-1)%R) by lra. subst inflation_rate.
  rewrite discount_to_present_raises in Hx by exact Hy. discriminate.
Qed.

(** X14.  The headline figures are the last points of the chart: in a
    completed run over at least one year, both yearly series have one
    point per year of [years], the last nominal balance is the portfolio
    future value and the last inflation-adjusted balance is the
    inflation-adjusted future value. *)
Theorem headline_figures_end_the_series
    (api_key : option string) (post : nat -> response)
    (age : Z) (horizon : nat) (income monthly_invest current_savings : Z)
    (inflation_rate fd_rate : R) (selected_goals : list string)
    (submitted : bool) (ctx : context) :
  tab_main api_key post age horizon income monthly_invest current_savings
           inflation_rate fd_rate selected_goals submitted = Completed ctx ->
  horizon <> 0%nat ->
  (length (ctx_years ctx) = horizon
   /\ length (ctx_balances_nominal ctx) = horizon
   /\ length (ctx_balances_real ctx) = horizon)
  /\ last (ctx_balances_nominal ctx) = Some (ctx_port_future ctx)
  /\ last (ctx_balances_real ctx) = Some (ctx_port_real ctx).
Proof.
  intros Hrun Hh.
  destruct (tab_main_completed_inv _ _ _ _ _ _ _ _ _ _ _ _ Hrun)
    as (_ & _ & _ & _ & _ & Hyears & Hport & Hreal & Hnom & Hreals & _ & _).
  pose proof (discount_to_present_some_nonzero _ _ _ _ Hh Hreal) as Hinfl.
  rewrite discount_to_present_defined in Hreal by exact Hinfl.
  rewrite inflation_adjust_series_defined in Hreals by exact Hinfl.
  injection Hreal as Hreal. injection Hreals as Hreals.
  rewrite <- Hreals, <- Hreal, Hyears, Hnom, Hport.
  rewrite yearly_balances_snapshots.
  destruct horizon as [|n]; [congruence|].
  split.
  - repeat split;
      rewrite ?length_map, ?length_zip_with, ?length_map, ?length_seq; lia.
  - rewrite seq_S, map_app. cbn [map].
    rewrite zip_with_app by now rewrite length_map.
    cbn [zip_with]. rewrite map_app. cbn [map fst snd].
    rewrite !last_snoc. split; reflexivity.
Qed.

Lemma headline_figures_end_the_series_witness :
  exists ctx,
    tab_main None (fun _ => Raised) 30 15 100000 20000 0 (5 / 100)%R (7 / 100)%R
             ["Wealth Creation"%string] true = Completed ctx
    /\ 15%nat <> 0%nat
    /\ last (ctx_balances_nominal ctx) = Some (ctx_port_future ctx)
    /\ last (ctx_balances_real ctx) = Some (ctx_port_real ctx).
Proof.
  destruct (tab_main_completes None (fun _ => Raised) 30 15 100000 20000 0
              (5 / 100)%R (7 / 100)%R ["Wealth Creation"%string])
    as [ctx Hctx]; [discriminate|left; lra|].
  exists ctx. split; [exact Hctx|].
  assert (Hh : 15%nat <> 0%nat) by discriminate.
  split; [exact Hh|].
  exact (proj2 (headline_figures_end_the_series _ _ _ _ _ _ _ _ _ _ _ _ Hctx Hh)).
Defined.

(** X15.  When a credential is set and the first attempt that does
    not fail comes within the two attempts, a completed run shows the
    text that attempt returned, unchanged; if that text is empty, or if
    the attempt returned a null content, the fallback sentence is shown
    instead. *)
Theorem narrator_text_is_shown
    (c : ascii) (key : string) (post : nat -> response)
    (age : Z) (horizon : nat) (income monthly_invest current_savings : Z)
    (inflation_rate fd_rate : R) (selected_goals : list string)
    (submitted : bool) (ctx : context) (i : nat) :
  tab_main (Some (String c key)) post age horizon income monthly_invest
           current_savings inflation_rate fd_rate selected_goals submitted
  = Completed ctx ->
  (i < 2)%nat ->
  (forall j, (j < i)%nat -> Spec.failed (post j)) ->
  (forall text, post i = Replied 200 (Text text) ->
     advice ctx
     = match text with
       | EmptyString =>
           fallback_advice age monthly_invest current_savings horizon
                           (ctx_risk_level ctx) (ctx_exp_ret ctx)
       | _ => text
       end)
  /\ (post i = Replied 200 Null ->
      advice ctx
      = fallback_advice age monthly_invest current_savings horizon
                        (ctx_risk_level ctx) (ctx_exp_ret ctx)).
Proof.
  intros Hrun Hi Hfail.
  destruct (tab_main_completed_inv _ _ _ _ _ _ _ _ _ _ _ _ Hrun)
    as (_ & _ & _ & _ & Hadvice & _).
  cbn [call_llm_with_backoff] in Hadvice.
  destruct (attempts_at_first_not_failed post 2 i Hi Hfail) as [Hnull Htext].
  split.
  - intros text Hpost. rewrite (Htext text Hpost) in Hadvice. exact Hadvice.
  - intros Hpost. rewrite (Hnull Hpost) in Hadvice. exact Hadvice.
Qed.

Lemma narrator_text_is_shown_witness :
  exists ctx,
    tab_main (Some "k"%string)
             (fun i => if (i =? 0)%nat then Raised
                       else Replied 200 (Text "Stay the course."))
             30 15 100000 20000 0 (5 / 100)%R (7 / 100)%R
             ["Wealth Creation"%string] true = Completed ctx
    /\ advice ctx = "Stay the course."%string.
Proof.
  destruct (tab_main_completes (Some "k"%string)
              (fun i => if (i =? 0)%nat then Raised
                        else Replied 200 (Text "Stay the course."))
              30 15 100000 20000 0
              (5 / 100)%R (7 / 100)%R ["Wealth Creation"%string])
    as [ctx Hctx]; [discriminate|left; lra|].
  exists ctx. split; [exact Hctx|].
  apply (proj1 (narrator_text_is_shown _ _ _ _ _ _ _ _ _ _ _ _ _ 1%nat Hctx
                  ltac:(lia)
                  ltac:(intros j Hj; destruct j as [|j]; [exact I|lia]))
               "Stay the course."%string).
  reflexivity.
Defined.

End run_consistency.

(** ** Risk inference *)

Section risk_further.

Lemma spec_points_ranges (rate : Q) (age horizon : Z) (goals : list string) :
  (0 <= Spec.age_points age <= 2)%Z
  /\ (0 <= Spec.horizon_points horizon <= 2)%Z
  /\ (0 <= Spec.savings_points rate <= 1)%Z
  /\ (0 <= Spec.goal_points goals <= 1)%Z.
Proof.
  unfold Spec.age_points, Spec.horizon_points, Spec.savings_points,
    Spec.goal_points.
  repeat case_decide; destruct (Qlt_le_dec rate 0.3); lia.
Qed.

(** X16.  The score of [infer_risk] lies between 0 and 6 and the tier is
    one of the three labels; an investor older than 50 is never High, nor
    is one of 35 or more with a horizon under 15 years; an investor under
    35 with a horizon of 15 years or more is never Low. *)
Theorem infer_risk_bounds (age horizon : Z) (goals : list string)
    (monthly_invest income : Q) :
  (0 <= (infer_risk age horizon goals monthly_invest income).2 <= 6)%Z
  /\ (infer_risk age horizon goals monthly_invest income).1
     ∈ ["Low"; "Medium"; "High"]%string
  /\ ((50 < age)%Z ->
      (infer_risk age horizon goals monthly_invest income).1 <> "High"%string)
  /\ ((35 <= age)%Z -> (horizon < 15)%Z ->
      (infer_risk age horizon goals monthly_invest income).1 <> "High"%string)
  /\ ((age < 35)%Z -> (15 <= horizon)%Z ->
      (infer_risk age horizon goals monthly_invest income).1 <> "Low"%string).
Proof.
  rewrite infer_risk_tier, infer_risk_score.
  destruct (spec_points_ranges (savings_rate monthly_invest income)
              age horizon goals) as (Ha & Hh & Hs & Hg).
  unfold Spec.score, Spec.tier.
  split; [lia|].
  split; [repeat case_decide; apply list_elem_of_In; cbn; auto|].
  unfold Spec.age_points, Spec.horizon_points in *.
  repeat split; intros; repeat case_decide; try discriminate; lia.
Qed.

Lemma infer_risk_bounds_witness :
  ((50 < 60)%Z
   /\ (infer_risk 60 30 ["Retirement"%string] 50000 100000).1 <> "High"%string)
  /\ ((35 <= 40)%Z /\ (10 < 15)%Z
      /\ (infer_risk 40 10 ["Wealth Creation"%string] 50000 100000).1
         <> "High"%string)
  /\ ((20 < 35)%Z /\ (15 <= 15)%Z
      /\ (infer_risk 20 15 [] 0 0).1 <> "Low"%string).
Proof.
  split; [|split].
  - split; [lia|].
    apply (proj1 (proj2 (proj2 (infer_risk_bounds 60 30 ["Retirement"%string]
                                  50000 100000)))). lia.
  - split; [lia|]. split; [lia|].
    apply (proj1 (proj2 (proj2 (proj2 (infer_risk_bounds
             40 10 ["Wealth Creation"%string] 50000 100000))))); lia.
  - split; [lia|]. split; [lia|].
    apply (proj2 (proj2 (proj2 (proj2 (infer_risk_bounds 20 15 [] 0 0))))); lia.
Defined.

(** X17.  [infer_risk] looks at the goals only to see whether "Wealth
    Creation" or "Retirement" is among them: two goal lists that agree on
    that (whatever their order, repetitions and other goals) give the
    same tier and score. *)
Theorem infer_risk_goals_membership (age horizon : Z) (goals1 goals2 : list string)
    (monthly_invest income : Q) :
  ("Wealth Creation"%string ∈ goals1 \/ "Retirement"%string ∈ goals1
   <-> "Wealth Creation"%string ∈ goals2 \/ "Retirement"%string ∈ goals2) ->
  infer_risk age horizon goals1 monthly_invest income
  = infer_risk age horizon goals2 monthly_invest income.
Proof.
  intros Hiff.
  assert (Hpoints : Spec.goal_points goals1 = Spec.goal_points goals2).
  { unfold Spec.goal_points. repeat case_decide; tauto. }
  rewrite (surjective_pairing (infer_risk age horizon goals1 _ _)).
  rewrite (surjective_pairing (infer_risk age horizon goals2 _ _)).
  rewrite !infer_risk_tier, !infer_risk_score. unfold Spec.score.
  now rewrite Hpoints.
Qed.

Lemma infer_risk_goals_membership_witness :
  infer_risk 30 20 ["Education"; "Retirement"; "Education"]%string 1000 100000
  = infer_risk 30 20 ["Wealth Creation"; "Other"]%string 1000 100000.
Proof.
  apply infer_risk_goals_membership. split; intros _.
  - left. apply list_elem_of_In. cbn. auto.
  - right. apply list_elem_of_In. cbn. auto.
Defined.

Lemma savings_rate_monotone (mi mi' inc : Q) :
  (mi <= mi')%Q -> (savings_rate mi inc <= savings_rate mi' inc)%Q.
Proof.
  intros Hle. unfold savings_rate.
  destruct (Qle_bool inc 0) eqn:Hinc; [apply Qle_refl|].
  unfold Qdiv. apply Qmult_le_compat_r; [exact Hle|].
  apply Qinv_le_0_compat.
  apply Qle_trans with (y := 1%Q); [discriminate|apply Q.le_max_r].
Qed.

(** X18.  The score never falls when the investor is younger, the
    horizon longer or the monthly investment larger, everything else
    being equal. *)
Theorem infer_risk_score_monotone (age age' horizon horizon' : Z)
    (goals : list string) (monthly_invest monthly_invest' income : Q) :
  (age' <= age)%Z -> (horizon <= horizon')%Z ->
  (monthly_invest <= monthly_invest')%Q ->
  ((infer_risk age horizon goals monthly_invest income).2
   <= (infer_risk age' horizon' goals monthly_invest' income).2)%Z.
Proof.
  intros Hage Hhor Hmi. rewrite !infer_risk_score. unfold Spec.score.
  pose proof (savings_rate_monotone _ _ income Hmi) as Hrate.
  assert (Hs : (Spec.savings_points (savings_rate monthly_invest income)
                <= Spec.savings_points (savings_rate monthly_invest' income))%Z).
  { unfold Spec.savings_points.
    destruct (Qlt_le_dec (savings_rate monthly_invest income) 0.3) as [H1 | H1];
      destruct (Qlt_le_dec (savings_rate monthly_invest' income) 0.3)
        as [H2 | H2]; try lia.
    exfalso. apply (Qlt_not_le _ _ H2). now apply Qle_trans with (2 := Hrate). }
  unfold Spec.age_points, Spec.horizon_points.
  repeat case_decide; lia.
Qed.

Lemma infer_risk_score_monotone_witness :
  ((30 <= 40)%Z /\ (10 <= 20)%Z /\ (1000 <= 40000)%Q)
  /\ ((infer_risk 40 10 [] 1000 100000).2
      <= (infer_risk 30 20 [] 40000 100000).2)%Z.
Proof.
  assert (Hage : (30 <= 40)%Z) by lia.
  assert (Hhor : (10 <= 20)%Z) by lia.
  assert (Hmi : (1000 <= 40000)%Q) by discriminate.
  split; [auto|].
  exact (infer_risk_score_monotone 40 30 10 20 [] 1000 40000 100000
           Hage Hhor Hmi).
Defined.

End risk_further.

(** ** Allocation *)

Section allocation_further.

(** X19.  A label outside the table is treated unevenly: the allocation
    falls back to the Medium mix for every label other than "Low" and
    "High", while the expected-return lookup raises for every label
    other than the three of the table. *)
Theorem allocation_unknown_label (risk_level : string) :
  (risk_level <> "Low"%string -> risk_level <> "High"%string ->
   suggest_allocation_from_risk risk_level
   = suggest_allocation_from_risk "Medium")
  /\ (expected_return_from_risk risk_level = None
      <-> risk_level <> "Low"%string /\ risk_level <> "Medium"%string
          /\ risk_level <> "High"%string).
Proof.
  split.
  - intros Hlow Hhigh. unfold suggest_allocation_from_risk.
    destruct (String.eqb_spec risk_level "Low") as [? | _]; [contradiction|].
    destruct (String.eqb_spec risk_level "High") as [? | _]; [contradiction|].
    reflexivity.
  - unfold expected_return_from_risk.
    rewrite !lookup_insert_None, lookup_empty. split.
    + intros ((( _ & Hl) & Hm) & Hh). repeat split; congruence.
    + intros (Hl & Hm & Hh). repeat split; congruence.
Qed.

Lemma allocation_unknown_label_witness :
  ("Aggressive"%string <> "Low"%string /\ "Aggressive"%string <> "High"%string)
  /\ suggest_allocation_from_risk "Aggressive"
     = suggest_allocation_from_risk "Medium"
  /\ expected_return_from_risk "Aggressive" = None.
Proof.
  split; [split; discriminate|]. split.
  - apply (proj1 (allocation_unknown_label "Aggressive")); discriminate.
  - apply (proj2 (allocation_unknown_label "Aggressive")).
    repeat split; discriminate.
Defined.

(** X20.  A higher score never lowers the expected return or the equity
    share: for two profiles whose scores are ordered, the expected
    returns and the equity weights of their tiers are ordered the same
    way, and both lookups succeed. *)
Theorem higher_score_more_growth
    (age1 horizon1 : Z) (goals1 : list string) (invest1 income1 : Q)
    (age2 horizon2 : Z) (goals2 : list string) (invest2 income2 : Q) :
  ((infer_risk age1 horizon1 goals1 invest1 income1).2
   <= (infer_risk age2 horizon2 goals2 invest2 income2).2)%Z ->
  exists e1 e2 q1 q2 : Q,
    expected_return_from_risk (infer_risk age1 horizon1 goals1 invest1 income1).1
    = Some e1
    /\ expected_return_from_risk (infer_risk age2 horizon2 goals2 invest2 income2).1
       = Some e2
    /\ suggest_allocation_from_risk
         (infer_risk age1 horizon1 goals1 invest1 income1).1 !! "Equity"%string
       = Some q1
    /\ suggest_allocation_from_risk
         (infer_risk age2 horizon2 goals2 invest2 income2).1 !! "Equity"%string
       = Some q2
    /\ (e1 <= e2)%Q /\ (q1 <= q2)%Q.
Proof.
  rewrite !infer_risk_tier.
  generalize (infer_risk age1 horizon1 goals1 invest1 income1).2.
  generalize (infer_risk age2 horizon2 goals2 invest2 income2).2.
  intros s2 s1 Hle. unfold Spec.tier.
  repeat case_decide; try lia;
    do 4 eexists; (repeat split; [reflexivity..| |]); discriminate.
Qed.

Lemma higher_score_more_growth_witness :
  ((infer_risk 60 5 [] 0 0).2
   <= (infer_risk 30 20 ["Retirement"%string] 40000 100000).2)%Z
  /\ exists e1 e2 : Q,
       expected_return_from_risk (infer_risk 60 5 [] 0 0).1 = Some e1
       /\ expected_return_from_risk
            (infer_risk 30 20 ["Retirement"%string] 40000 100000).1 = Some e2
       /\ (e1 <= e2)%Q.
Proof.
  assert (Hle : ((infer_risk 60 5 [] 0 0).2
     <= (infer_risk 30 20 ["Retirement"%string] 40000 100000).2)%Z)
    by discriminate.
  split; [exact Hle|].
  destruct (higher_score_more_growth 60 5 [] 0 0
              30 20 ["Retirement"%string] 40000 100000 Hle)
    as (e1 & e2 & q1 & q2 & H1 & H2 & _ & _ & He & _).
  exists e1, e2. auto.
Defined.

Lemma coerce_agree (raw1 raw2 : gmap string pyval) (d1 d2 : gmap string Q)
    (k : string) :
  raw1 !! k = raw2 !! k -> d1 !! k = d2 !! k ->
  coerce raw1 d1 k = coerce raw2 d2 k.
Proof. intros Hr Hd. unfold coerce. now rewrite Hr, Hd. Qed.

Lemma elem_of_keys (k : string) :
  k ∈ keys <->
  k = "Equity"%string \/ k = "Debt"%string \/ k = "Gold"%string
  \/ k = "Cash"%string.
Proof.
  unfold keys. rewrite !elem_of_cons, elem_of_nil. tauto.
Qed.

(** X21.  When the coerced total is positive, the result of [normalize]
    has exactly the four asset-class keys and depends only on the
    entries of the raw and default mappings under those keys: any other
    key of either mapping is ignored. *)
Theorem normalize_only_four_keys (raw1 raw2 : gmap string pyval)
    (default1 default2 : gmap string Q) :
  (forall k, k ∈ keys -> raw1 !! k = raw2 !! k) ->
  (forall k, k ∈ keys -> default1 !! k = default2 !! k) ->
  (0 < Spec.coerced_total raw1 default1)%Q ->
  normalize_allocation raw1 default1 = normalize_allocation raw2 default2
  /\ forall k, is_Some (normalize_allocation raw1 default1 !! k) <-> k ∈ keys.
Proof.
  intros Hraw Hdef Hpos.
  assert (Hco : forall k, k ∈ keys ->
            coerce raw1 default1 k = coerce raw2 default2 k).
  { intros k Hk. apply coerce_agree; [now apply Hraw|now apply Hdef]. }
  split.
  - unfold normalize_allocation. rewrite !normalize_out.
    rewrite !Hco by (apply elem_of_keys; tauto).
    destruct (Qle_bool _ 0) eqn:Hb; [|reflexivity].
    exfalso. apply Qle_bool_iff in Hb. rewrite sum_values_mix in Hb.
    rewrite <- !Hco in Hb by (apply elem_of_keys; tauto).
    exact (Qlt_not_le _ _ Hpos Hb).
  - destruct (normalize_gt_0 _ _ Hpos) as (s & _ & ->).
    intros k. rewrite elem_of_keys. split.
    + intros [v Hv].
      destruct (lookup_mix _ _ _ _ _ _ Hv) as [[-> _]|[[-> _]|[[-> _]|[-> _]]]];
        tauto.
    + intros [-> | [-> | [-> | ->]]]; eexists; reflexivity.
Qed.

Lemma normalize_only_four_keys_witness :
  (0 < Spec.coerced_total (<["Equity"%string := Num 3]> ∅)
                          (Spec.mix 0.55 0.30 0.10 0.05))%Q
  /\ normalize_allocation (<["Equity"%string := Num 3]> ∅)
                          (Spec.mix 0.55 0.30 0.10 0.05)
     = normalize_allocation
         (<["Crypto"%string := Num 9]> (<["Equity"%string := Num 3]> ∅))
         (<["Crypto"%string := 0.5%Q]> (Spec.mix 0.55 0.30 0.10 0.05)).
Proof.
  assert (Hpos : (0 < Spec.coerced_total (<["Equity"%string := Num 3]> ∅)
                          (Spec.mix 0.55 0.30 0.10 0.05))%Q) by reflexivity.
  split; [exact Hpos|].
  apply (normalize_only_four_keys
           (<["Equity"%string := Num 3]> ∅)
           (<["Crypto"%string := Num 9]> (<["Equity"%string := Num 3]> ∅))
           (Spec.mix 0.55 0.30 0.10 0.05)
           (<["Crypto"%string := 0.5%Q]> (Spec.mix 0.55 0.30 0.10 0.05)));
    [| |exact Hpos];
    intros k Hk; apply elem_of_keys in Hk;
    destruct Hk as [-> | [-> | [-> | ->]]]; reflexivity.
Defined.

(** X22.  [normalize] does not depend on the unit of the raw weights:
    when the raw mapping gives a number for each of the four keys and
    their total is positive, multiplying them all by the same positive
    factor (percentages instead of fractions) gives equal weights. *)
Theorem normalize_scale_invariant (raw raw' : gmap string pyval)
    (default_alloc default_alloc' : gmap string Q) (q : string -> Q) (c : Q) :
  (forall k, k ∈ keys -> raw !! k = Some (Num (q k))) ->
  (forall k, k ∈ keys -> raw' !! k = Some (Num (c * q k)%Q)) ->
  (0 < c)%Q ->
  (0 < q "Equity"%string + q "Debt"%string + q "Gold"%string + q "Cash"%string)%Q ->
  forall (k : string) (v v' : Q),
    normalize_allocation raw default_alloc !! k = Some v ->
    normalize_allocation raw' default_alloc' !! k = Some v' ->
    (v == v')%Q.
Proof.
  intros Hraw Hraw' Hc Htot k v v' Hv Hv'.
  assert (Hco : forall k, k ∈ keys -> coerce raw default_alloc k = q k)
    by (intros j Hj; apply coerce_num, Hraw, Hj).
  assert (Hco' : forall k, k ∈ keys ->
            coerce raw' default_alloc' k = (c * q k)%Q)
    by (intros j Hj; apply coerce_num, Hraw', Hj).
  assert (HE : "Equity"%string ∈ keys) by (apply elem_of_keys; tauto).
  assert (HD : "Debt"%string ∈ keys) by (apply elem_of_keys; tauto).
  assert (HG : "Gold"%string ∈ keys) by (apply elem_of_keys; tauto).
  assert (HC : "Cash"%string ∈ keys) by (apply elem_of_keys; tauto).
  assert (Hpos : (0 < Spec.coerced_total raw default_alloc)%Q).
  { unfold Spec.coerced_total. now rewrite !Hco by assumption. }
  assert (Htot' : (Spec.coerced_total raw' default_alloc'
                   == c * (q "Equity"%string + q "Debt"%string
                           + q "Gold"%string + q "Cash"%string))%Q).
  { unfold Spec.coerced_total. rewrite !Hco' by assumption. ring. }
  remember (q "Equity"%string + q "Debt"%string + q "Gold"%string
            + q "Cash"%string)%Q as t eqn:Ht.
  assert (Hpos' : (0 < Spec.coerced_total raw' default_alloc')%Q).
  { rewrite Htot'. rewrite <- (Qmult_0_r c).
    apply Qmult_lt_l; assumption. }
  destruct (normalize_gt_0 _ _ Hpos) as (s & Hs & Hn).
  destruct (normalize_gt_0 _ _ Hpos') as (s' & Hs' & Hn').
  unfold Spec.coerced_total in Hs. rewrite !Hco in Hs by assumption.
  rewrite <- Ht in Hs. rewrite Htot' in Hs'.
  rewrite Hn, !Hco in Hv by assumption.
  rewrite Hn', !Hco' in Hv' by assumption.
  assert (Ht0 : ~ (t == 0)%Q)
    by (intros H0; exact (Qlt_not_eq _ _ Htot (Qeq_sym _ _ H0))).
  assert (Hc0 : ~ (c == 0)%Q)
    by (intros H0; exact (Qlt_not_eq _ _ Hc (Qeq_sym _ _ H0))).
  assert (Hquot : forall x, (x / s == c * x / s')%Q).
  { intros x. rewrite Hs, Hs'. field. split; assumption. }
  destruct (lookup_mix _ _ _ _ _ _ Hv) as [[Hk ->]|[[Hk ->]|[[Hk ->]|[Hk ->]]]];
    destruct (lookup_mix _ _ _ _ _ _ Hv')
      as [[Hk' ->]|[[Hk' ->]|[[Hk' ->]|[Hk' ->]]]];
    rewrite Hk in Hk'; first [discriminate Hk' | apply Hquot].
Qed.

Lemma normalize_scale_invariant_witness :
  exists v v' : Q,
    normalize_allocation (Num <$> Spec.mix 0.6 0.2 0.1 0.1) ∅ !! "Equity"%string
    = Some v
    /\ normalize_allocation
         (Num <$> Spec.mix (100 * 0.6) (100 * 0.2) (100 * 0.1) (100 * 0.1)) ∅
         !! "Equity"%string
       = Some v'
    /\ (v == v')%Q.
Proof.
  destruct (normalize_allocation (Num <$> Spec.mix 0.6 0.2 0.1 0.1) ∅
              !! "Equity"%string) as [v|] eqn:Hv;
    [|vm_compute in Hv; discriminate].
  destruct (normalize_allocation
              (Num <$> Spec.mix (100 * 0.6) (100 * 0.2) (100 * 0.1) (100 * 0.1)) ∅
              !! "Equity"%string) as [v'|] eqn:Hv';
    [|vm_compute in Hv'; discriminate].
  exists v, v'. split; [reflexivity|]. split; [reflexivity|].
  apply (normalize_scale_invariant
           (Num <$> Spec.mix 0.6 0.2 0.1 0.1)
           (Num <$> Spec.mix (100 * 0.6) (100 * 0.2) (100 * 0.1) (100 * 0.1))
           ∅ ∅
           (fun k => default 0%Q (Spec.mix 0.6 0.2 0.1 0.1 !! k)) 100%Q)
    with (k := "Equity"%string); try assumption.
  - intros k Hk. apply elem_of_keys in Hk.
    destruct Hk as [-> | [-> | [-> | ->]]]; reflexivity.
  - intros k Hk. apply elem_of_keys in Hk.
    destruct Hk as [-> | [-> | [-> | ->]]]; reflexivity.
  - reflexivity.
  - reflexivity.
Defined.

End allocation_further.

(** ** Formatting *)

Section format_further.

Lemma strip_commas_filter (l : list ascii) :
  strip_commas (string_of_list_ascii l)
  = string_of_list_ascii (List.filter not_comma l).
Proof.
  induction l as [|c l IH]; [reflexivity|].
  cbn [string_of_list_ascii strip_commas List.filter]. unfold not_comma at 1.
  destruct (Ascii.eqb c ","%char); cbn [negb]; [exact IH|].
  cbn [string_of_list_ascii]. now rewrite IH.
Qed.

Lemma group3_filter (l : list ascii) (k : nat) :
  List.filter not_comma (group3 l k) = List.filter not_comma l.
Proof.
  revert k. induction l as [|c l IH]; intros k; [reflexivity|].
  cbn [group3]. destruct (k =? 3)%nat.
  - cbn [List.filter]. change (not_comma ","%char) with false. cbn iota.
    now rewrite IH.
  - cbn [List.filter]. now rewrite IH.
Qed.

Lemma strip_commas_digits (d : Decimal.uint) :
  strip_commas (NilZero.string_of_uint d) = NilZero.string_of_uint d.
Proof.
  assert (Hd : forall u, strip_commas (NilEmpty.string_of_uint u)
                         = NilEmpty.string_of_uint u).
  { induction u as [|u IH|u IH|u IH|u IH|u IH|u IH|u IH|u IH|u IH|u IH];
      cbn [NilEmpty.string_of_uint strip_commas]; cbn; now rewrite ?IH. }
  destruct d; try apply Hd. reflexivity.
Qed.

Lemma strip_commas_grouped (s : string) :
  strip_commas
    (string_of_list_ascii (rev (group3 (rev (list_ascii_of_string s)) 0)))
  = strip_commas s.
Proof.
  rewrite strip_commas_filter, List.filter_rev, group3_filter,
    List.filter_rev, rev_involutive, <- strip_commas_filter.
  now rewrite string_of_list_ascii_of_string.
Qed.

(** X23.  The thousands separators are the only thing [:,.0f] adds to
    an integer: removing the commas from the formatted amount gives back
    the decimal writing of the amount, sign included. *)
Theorem fmt_comma0_strip_commas (n : Z) :
  strip_commas (fmt_comma0 n) = str_int n.
Proof.
  unfold fmt_comma0, str_int. destruct n as [|p|p].
  - reflexivity.
  - cbn [Z.abs Z.ltb Z.compare]. rewrite strip_commas_grouped.
    apply strip_commas_digits.
  - cbn [Z.abs Z.ltb Z.compare strip_commas].
    change (Ascii.eqb "-"%char ","%char) with false. cbn iota.
    rewrite strip_commas_grouped.
    cbn [Z.to_int NilZero.string_of_int]. f_equal. apply strip_commas_digits.
Qed.

End format_further.

(** ** The risk seed of the URL *)

Section risk_hint_further.

Lemma ascii_case_facts (c : ascii) :
  lower_ascii (lower_ascii c) = lower_ascii c
  /\ upper_ascii (lower_ascii c) = upper_ascii c
  /\ (is_upper (lower_ascii c) || is_lower (lower_ascii c))
     = (is_upper c || is_lower c).
Proof.
  destruct c as [[] [] [] [] [] [] [] []]; vm_compute; auto.
Qed.

Lemma lower_cons (c : ascii) (s : string) :
  lower (String c s) = String (lower_ascii c) (lower s).
Proof. reflexivity. Qed.

Lemma title_from_lower (b : bool) (s : string) :
  title_from b (lower s) = title_from b s.
Proof.
  revert b. induction s as [|c s IH]; intros b; [reflexivity|].
  rewrite lower_cons. cbn [title_from].
  destruct (ascii_case_facts c) as (Hl & Hu & Hc).
  rewrite Hl, Hu, Hc, IH. reflexivity.
Qed.

(** X24.  The risk seed is always one of "Low", "Medium" and "High"; it
    is "Medium" when the parameters are not a dictionary, when "risk" is
    absent, or when its value is the empty string or an empty list. *)
Theorem risk_hint_valid (params : option (gmap string qvalue)) :
  risk_hint params ∈ RISK_OPTIONS
  /\ ((params = None
       \/ (exists m, params = Some m
             /\ (m !! "risk"%string = None
                 \/ m !! "risk"%string = Some (QStr EmptyString)
                 \/ m !! "risk"%string = Some (QList []))))
      -> risk_hint params = "Medium"%string).
Proof.
  split.
  - unfold risk_hint.
    destruct (str_in _ RISK_OPTIONS) eqn:Hin.
    + now apply str_in_elem_of.
    + apply list_elem_of_In. cbn. auto.
  - intros [-> | (m & -> & [H | [H | H]])];
      unfold risk_hint, get_query_param; rewrite ?H; reflexivity.
Qed.

Lemma risk_hint_valid_witness :
  risk_hint None = "Medium"%string
  /\ risk_hint (Some (<["risk"%string := QList []]> ∅)) = "Medium"%string.
Proof.
  split.
  - apply (proj2 (risk_hint_valid None)). now left.
  - apply (proj2 (risk_hint_valid (Some (<["risk"%string := QList []]> ∅)))).
    right. eexists. split; [reflexivity|]. right. right. reflexivity.
Defined.

(** X25.  The risk seed is read without regard to letter case: a value
    of "risk" (or the first element of its list) that is "low", "medium"
    or "high" in any mix of upper and lower case gives "Low", "Medium" or
    "High". *)
Theorem risk_hint_case_insensitive (params : option (gmap string qvalue)) :
  (lower (get_query_param params "risk" "Medium") = "low"%string ->
   risk_hint params = "Low"%string)
  /\ (lower (get_query_param params "risk" "Medium") = "medium"%string ->
      risk_hint params = "Medium"%string)
  /\ (lower (get_query_param params "risk" "Medium") = "high"%string ->
      risk_hint params = "High"%string).
Proof.
  unfold risk_hint.
  generalize (get_query_param params "risk" "Medium"). intros s.
  assert (Htitle : forall t, lower s = t -> s <> EmptyString ->
            title match s with
                  | EmptyString => "Medium"%string
                  | String _ _ => s
                  end = title t).
  { intros t <- Hne. destruct s as [|c s]; [congruence|].
    unfold title. now rewrite title_from_lower. }
  repeat split; intros Hs;
    (rewrite (Htitle _ Hs) by (intros ->; discriminate Hs)); reflexivity.
Qed.

Lemma risk_hint_case_insensitive_witness :
  lower (get_query_param (Some (<["risk"%string := QStr "hIGH"]> ∅))
                         "risk" "Medium") = "high"%string
  /\ risk_hint (Some (<["risk"%string := QStr "hIGH"]> ∅)) = "High"%string.
Proof.
  assert (H : lower (get_query_param (Some (<["risk"%string := QStr "hIGH"]> ∅))
                         "risk" "Medium") = "high"%string) by reflexivity.
  split; [exact H|].
  exact (proj2 (proj2 (risk_hint_case_insensitive
                         (Some (<["risk"%string := QStr "hIGH"]> ∅)))) H).
Defined.

End risk_hint_further.
